(** * vscode-deploy-reloaded: target operation chains and pull dispatch

    A shallow embedding of [src/targets.ts] and [src/pull.ts].

    Asynchronous functions are modelled as state-passing computations whose
    result is an [Outcome]: a promise either resolves with a value or rejects
    with an error.  Every call that leaves the two source files (the output
    channel, the warning popup, the quick pick, the filesystem, a plugin's
    [downloadFiles], an operation executor) is recorded as an event, in call
    order, so that "is invoked", "exactly once" and "in registry order" are
    statements about the recorded sequence. *)

From Stdlib Require Import String Ascii List Bool Arith Lia.
Import ListNotations.

Set Warnings "-register-all".

Local Open Scope string_scope.
Local Open Scope nat_scope.
Local Open Scope list_scope.

Notation "a ^^ b" := (String.append a b) (at level 35, right associativity).

(** ** Values shared by both files *)

(** A thrown JavaScript value; only its string rendering [`${e}`] is used. *)
Definition JsError := string.

(** The settled state of a promise. *)
Inductive Outcome (A : Type) : Type :=
| Resolved (a : A)
| Rejected (e : JsError).
Arguments Resolved {A} a.
Arguments Rejected {A} e.

(** ** State and error monad for [async] functions *)

Definition Async (S A : Type) : Type := S -> Outcome A * S.

Definition ret {S A} (a : A) : Async S A := fun st => (Resolved a, st).

Definition throw {S A} (e : JsError) : Async S A := fun st => (Rejected e, st).

Definition bind {S A B} (m : Async S A) (k : A -> Async S B) : Async S B :=
  fun st =>
    match m st with
    | (Resolved a, st') => k a st'
    | (Rejected e, st') => (Rejected e, st')
    end.

(** [try { m } catch (e) { h e }] *)
Definition try_catch {S A} (m : Async S A) (h : JsError -> Async S A)
  : Async S A :=
  fun st =>
    match m st with
    | (Resolved a, st') => (Resolved a, st')
    | (Rejected e, st') => h e st'
    end.

Notation "x <- m ;; k" := (bind m (fun x => k))
  (at level 61, m at next level, right associativity).
Notation "m ;;; k" := (bind m (fun _ => k))
  (at level 61, right associativity).

(** ** Helpers ([./helpers] is not part of the two files) *)

Module Helpers.

Definition isWhitespace (c : ascii) : bool :=
  let n := nat_of_ascii c in
  (n =? 32) || ((9 <=? n) && (n <=? 13)).

Fixpoint trimStart (l : list ascii) : list ascii :=
  match l with
  | [] => []
  | c :: r => if isWhitespace c then trimStart r else l
  end.

(** [String.prototype.trim], on the ASCII white space characters. *)
Definition trim (s : string) : string :=
  string_of_list_ascii
    (rev (trimStart (rev (trimStart (list_ascii_of_string s))))).

Definition lowerChar (c : ascii) : ascii :=
  let n := nat_of_ascii c in
  if (65 <=? n) && (n <=? 90) then ascii_of_nat (n + 32) else c.

Fixpoint toLowerCase (s : string) : string :=
  match s with
  | EmptyString => EmptyString
  | String c r => String (lowerChar c) (toLowerCase r)
  end.

(** Modelled from the spec: [toStringSafe]; a missing value becomes the
    empty string, a string is returned as it is. *)
Definition toStringSafe (v : option string) : string :=
  match v with
  | Some s => s
  | None => EmptyString
  end.

(** Modelled from the spec: [normalizeString], the "lower-cased, trimmed"
    form of a tag (glossary, "Normalized type"). *)
Definition normalizeString (v : option string) : string :=
  trim (toLowerCase (toStringSafe v)).

(** Modelled from the spec: [isEmptyString], the test for an "empty/invalid
    string"; a string that holds nothing, or nothing but white space, counts
    as empty. *)
Definition isEmptyString (s : string) : bool :=
  String.eqb (trim s) EmptyString.

(** A setting that holds nothing, one value or an array of values. *)
Inductive OneOrMany (A : Type) : Type :=
| Absent
| One (a : A)
| Many (l : list A).
Arguments Absent {A}.
Arguments One {A} a.
Arguments Many {A} l.

(** Modelled from the spec: [asArray]; "zero, one, or many" values as a
    list. *)
Definition asArray {A} (v : OneOrMany A) : list A :=
  match v with
  | Absent => []
  | One a => [a]
  | Many l => l
  end.

(** [Enumerable.from(l).firstOrDefault(null)] *)
Definition firstOrDefault {A} (l : list A) : option A :=
  match l with
  | [] => None
  | a :: _ => Some a
  end.

(** [Enumerable.distinct()]: the values in the order they come, each
    one kept where it comes first; [seen] holds the values met so far. *)
Fixpoint distinctFrom (seen : list string) (l : list string) : list string :=
  match l with
  | [] => []
  | x :: r =>
      if existsb (String.eqb x) seen then distinctFrom seen r
      else x :: distinctFrom (x :: seen) r
  end.

Definition distinct (l : list string) : list string := distinctFrom [] l.

End Helpers.
Import Helpers.

(** ** Calls to the collaborators *)

Module Vscode.

(** The fields of [vscode.QuickPickItem] the two files fill in. *)
Record QuickPickItem : Type := {
  label : option string;
  description : string;
  detail : string
}.

(** A call that leaves the two source files, or the failure of such a
    call expression. *)
Inductive Event : Type :=
| Append (value : string)                  (* outputChannel.append *)
| AppendLine (value : string)              (* outputChannel.appendLine *)
| ShowWarningMessage (msg : string)        (* showWarningMessage *)
| ShowQuickPick (items : list QuickPickItem) (placeHolder : string)
                                           (* vscode.window.showQuickPick *)
| WriteFile (file : string) (data : string)
                                           (* deploy_helpers.writeFile *)
| DownloadFiles (plugin : nat) (files : list string)
                                           (* PI.downloadFiles(CTX), entered *)
| NotAFunction (plugin : nat).             (* PI.downloadFiles(CTX), no such
                                              method: the TypeError *)

(** The calls made so far, oldest first. *)
Definition Trace := list Event.

Definition emit (e : Event) : Async Trace unit :=
  fun st => (Resolved tt, st ++ [e]).

Definition append (value : string) : Async Trace unit := emit (Append value).

Definition appendLine (value : string) : Async Trace unit :=
  emit (AppendLine value).

Definition showWarningMessage (msg : string) : Async Trace unit :=
  emit (ShowWarningMessage msg).

End Vscode.

Module Contracts.

(** [deploy_contracts.ActionQuickPick]: a quick pick item with the action
    to run when it is chosen. *)
Record ActionQuickPick : Type := {
  item : Vscode.QuickPickItem;
  action : Async Vscode.Trace unit
}.

End Contracts.

(** ** [src/targets.ts] *)

Module Targets.

(** [TargetOperation]: the [type] tag, the [target] payload of an open
    operation and the [if] condition of a [ConditionalItem]. *)
Record TargetOperation : Type := {
  op_type : option string;
  op_target : option string;
  op_if : option string
}.

(** [TargetOperationValue = TargetOperation | string] *)
Inductive TargetOperationValue : Type :=
| OperationObject (o : TargetOperation)
| OperationString (s : string).

Inductive TargetOperationEvent : Type :=
| BeforeDeploy
| AfterDeployed.

(** The part of the owning workspace a target reads: its folder path and
    its translator [t(key, arg)]. *)
Record WorkspaceRef : Type := {
  fsPath : string;
  t : string -> nat -> string
}.

Record Target : Type := {
  name : option string;
  type : option string;
  description : option string;
  beforeDeploy : OneOrMany TargetOperationValue;
  deployed : OneOrMany TargetOperationValue;
  __index : nat;
  __workspace : WorkspaceRef
}.

(** [TargetOperationExecutionContext]; [previousOperation] links the
    contexts of one run into a history. *)
Inductive TargetOperationExecutionContext : Type :=
  Context (args : list string)
          (event : TargetOperationEvent)
          (operation : TargetOperation)
          (previousOperation : option TargetOperationExecutionContext)
          (target : Target)
          (type : string).

Definition ctx_args (c : TargetOperationExecutionContext) :=
  let 'Context a _ _ _ _ _ := c in a.
Definition ctx_event (c : TargetOperationExecutionContext) :=
  let 'Context _ e _ _ _ _ := c in e.
Definition ctx_operation (c : TargetOperationExecutionContext) :=
  let 'Context _ _ o _ _ _ := c in o.
Definition ctx_previousOperation (c : TargetOperationExecutionContext) :=
  let 'Context _ _ _ p _ _ := c in p.
Definition ctx_target (c : TargetOperationExecutionContext) :=
  let 'Context _ _ _ _ g _ := c in g.
Definition ctx_type (c : TargetOperationExecutionContext) :=
  let 'Context _ _ _ _ _ y := c in y.

(** [TargetOperationExecutionResult = void | null | boolean] *)
Inductive TargetOperationExecutionResult : Type :=
| ResultVoid
| ResultNull
| ResultBoolean (b : bool).

(** Modelled from the spec: [toBooleanSafe(val, defaultValue)]; [void] and
    [null] carry no opinion and give the default. *)
Definition toBooleanSafe (v : TargetOperationExecutionResult)
                         (defaultValue : bool) : bool :=
  match v with
  | ResultBoolean b => b
  | _ => defaultValue
  end.

(** The executors the [switch (TYPE)] can pick. *)
Inductive TargetOperationExecutor : Type :=
| OpenExecute.   (* deploy_targets_operations_open.execute *)

(** What awaiting an executor brings: the settled promise, and whether the
    owning workspace entered its finalize state in the meantime. *)
Record ExecutorRun : Type := {
  settled : Outcome TargetOperationExecutionResult;
  finalizing : bool
}.

(** The state a run threads: the workspace flag that the loop polls, and
    the executor calls made so far, oldest first. *)
Record State : Type := {
  isInFinalizeState : bool;
  invocations : list (TargetOperationExecutor * TargetOperationExecutionContext)
}.

Section Chain.

(** The built-in executors, from outside this file. *)
Variable executors :
  TargetOperationExecutor -> TargetOperationExecutionContext -> ExecutorRun.

(** The evaluation of an [if] condition, from outside this file. *)
Variable evalCondition : string -> bool.

(** Modelled from the spec: [filterConditionalItems]; "an operation
    carrying a condition that evaluates false is dropped", and so is a
    missing entry. *)
Definition filterConditionalItems (items : list (option TargetOperation))
  : list TargetOperation :=
  flat_map
    (fun i =>
       match i with
       | None => []
       | Some o =>
           match op_if o with
           | None => [o]
           | Some c => if evalCondition c then [o] else []
           end
       end)
    items.

(** [executor.apply(null, [ CTX ])], awaited. *)
Definition apply (executor : TargetOperationExecutor)
                 (CTX : TargetOperationExecutionContext)
  : Async State TargetOperationExecutionResult :=
  fun st =>
    let run := executors executor CTX in
    (settled run,
     {| isInFinalizeState := isInFinalizeState st || finalizing run;
        invocations := invocations st ++ [(executor, CTX)] |}).

(** The [switch (TYPE)] of the loop body. *)
Definition executorOf (TYPE : string) : option TargetOperationExecutor :=
  if String.eqb TYPE EmptyString then Some OpenExecute
  else if String.eqb TYPE "open" then Some OpenExecute
  else None.

(** The first half of the loop body: the operation an entry stands for. *)
Definition operationOf (OPERATION_VAL : TargetOperationValue)
  : option TargetOperation :=
  match OPERATION_VAL with
  | OperationObject o => Some o
  | OperationString s =>
      let APP := toStringSafe (Some s) in
      if negb (isEmptyString APP)
      then Some {| op_target := Some APP; op_type := Some EmptyString;
                   op_if := None |}
      else None
  end.

(** What the loop body makes of an entry before it builds the context:
    the operation that passed the filter and the executor of its type;
    [None] when the body reaches a [continue]. *)
Definition dispatchOf (OPERATION_VAL : TargetOperationValue)
  : option (TargetOperation * TargetOperationExecutor) :=
  match firstOrDefault
          (filterConditionalItems [operationOf OPERATION_VAL]) with
  | None => None
  | Some operationToExecute =>
      match executorOf (normalizeString (op_type operationToExecute)) with
      | None => None
      | Some executor => Some (operationToExecute, executor)
      end
  end.

(** The [for ... of] loop; [None] stands for [undefined]. *)
Fixpoint executeLoop (target : Target) (operationEvent : TargetOperationEvent)
                     (prevOperation : option TargetOperationExecutionContext)
                     (operations : list TargetOperationValue)
  : Async State (option bool) :=
  match operations with
  | [] => ret (Some true)
  | OPERATION_VAL :: rest =>
      fun st =>
        if isInFinalizeState st then (Resolved (Some false), st)
        else
          match firstOrDefault
                  (filterConditionalItems [operationOf OPERATION_VAL]) with
          | None => executeLoop target operationEvent prevOperation rest st
          | Some operationToExecute =>
              let TYPE := normalizeString (op_type operationToExecute) in
              match executorOf TYPE with
              | None =>
                  executeLoop target operationEvent prevOperation rest st
              | Some executor =>
                  let CTX := Context [] operationEvent operationToExecute
                                     prevOperation target TYPE in
                  (r <- apply executor CTX ;;
                   let ABORT := negb (toBooleanSafe r true) in
                   if ABORT then ret (Some false)
                   else executeLoop target operationEvent (Some CTX) rest)
                    st
              end
          end
  end.

Definition executeTargetOperations (target : option Target)
                                   (operationEvent : TargetOperationEvent)
  : Async State (option bool) :=
  match target with
  | None => ret None
  | Some target =>
      let operationsFromTarget :=
        match operationEvent with
        | AfterDeployed => deployed target
        | BeforeDeploy => beforeDeploy target
        end in
      executeLoop target operationEvent None (asArray operationsFromTarget)
  end.

End Chain.

(** [getTargetName]; [None] stands for [undefined]. *)
Definition getTargetName (target : option Target) : option string :=
  match target with
  | None => None
  | Some target =>
      let TRANSLATOR := __workspace target in
      let name := trim (toStringSafe (name target)) in
      Some (if String.eqb EmptyString name
            then t TRANSLATOR "targets.defaultName" (__index target + 1)
            else name)
  end.

(** [normalizeTargetType] *)
Definition normalizeTargetType (target : option Target) : option string :=
  match target with
  | None => None
  | Some target =>
      let TARGET_TYPE := normalizeString (type target) in
      Some (if negb (String.eqb EmptyString TARGET_TYPE) then TARGET_TYPE
            else "test"%string)
  end.

(** The [filter] inside [getTargetsByName]: the targets whose normalized
    name is [tn]. *)
Definition matchingTargets (targets : list Target) (tn : string)
  : list Target :=
  filter (fun g =>
            let TARGET_NAME := normalizeString (getTargetName (Some g)) in
            String.eqb TARGET_NAME tn)
         targets.

(** The [targetNames.forEach] of [getTargetsByName], with its two arrays. *)
Fixpoint forEachTargetName (targets : list Target) (targetNames : list string)
                           (EXISTING_TARGETS : list Target)
                           (NON_EXISTING_TARGETS : list string)
  : list Target * list string :=
  match targetNames with
  | [] => (EXISTING_TARGETS, NON_EXISTING_TARGETS)
  | tn :: r =>
      let MATCHING_TARGETS := matchingTargets targets tn in
      if 0 <? length MATCHING_TARGETS
      then forEachTargetName targets r
                             (EXISTING_TARGETS ++ MATCHING_TARGETS)
                             NON_EXISTING_TARGETS
      else forEachTargetName targets r EXISTING_TARGETS
                             (NON_EXISTING_TARGETS ++ [tn])
  end.

(** [getTargetsByName]; [None] stands for [false].  The function is not
    [async]: it returns its result and leaves the warnings it has shown. *)
Definition getTargetsByName (targetNames : OneOrMany string)
                            (targets : OneOrMany Target)
  : Vscode.Trace -> option (list Target) * Vscode.Trace :=
  fun st =>
    let targetNames :=
      distinct (map (fun tn => normalizeString (Some tn))
                    (asArray targetNames)) in
    let targets := asArray targets in
    let '(EXISTING_TARGETS, NON_EXISTING_TARGETS) :=
      forEachTargetName targets targetNames [] [] in
    if 0 <? length NON_EXISTING_TARGETS then
      (None,
       fold_left
         (fun st tn =>
            snd (Vscode.showWarningMessage
                   ("The target '" ^^ tn ^^ "' does NOT EXIST!") st))
         NON_EXISTING_TARGETS st)
    else (Some EXISTING_TARGETS, st).

Section QuickPick.

(** The user's answer to [vscode.window.showQuickPick]: the position of
    the chosen item, or nothing when the pick is dismissed. *)
Variable chooseQuickPick : list Vscode.QuickPickItem -> string -> option nat.

Definition showQuickPick (items : list Contracts.ActionQuickPick)
                         (placeHolder : string)
  : Async Vscode.Trace (option Contracts.ActionQuickPick) :=
  fun st =>
    let shown := map Contracts.item items in
    (Resolved
       match chooseQuickPick shown placeHolder with
       | Some i => nth_error items i
       | None => None
       end,
     st ++ [Vscode.ShowQuickPick shown placeHolder]).

(** [asArray(targets).filter(t => isObject(t))]; [None] stands for an
    entry that is no object. *)
Definition objectsOf (targets : OneOrMany (option Target)) : list Target :=
  flat_map (fun x => match x with Some g => [g] | None => [] end)
           (asArray targets).

(** [showTargetQuickPick]; its fourth parameter, [ifNoTargets], is not
    used by the body and is left out. *)
Definition showTargetQuickPick
             (targets : OneOrMany (option Target))
             (placeHolder : option string)
             (action : option (Target -> Async Vscode.Trace unit))
  : Async Vscode.Trace unit :=
  let targets := objectsOf targets in
  let QUICK_PICK_ITEMS :=
    map (fun g =>
           {| Contracts.action :=
                match action with
                | Some action => action g
                | None => ret tt
                end;
              Contracts.item :=
                {| Vscode.description := trim (toStringSafe (description g));
                   Vscode.detail := fsPath (__workspace g);
                   Vscode.label := getTargetName (Some g) |} |})
        targets in
  if length QUICK_PICK_ITEMS <? 1 then
    Vscode.showWarningMessage "No TARGETS found!"
  else
    selectedItem <-
      (if 1 =? length QUICK_PICK_ITEMS
       then ret (nth_error QUICK_PICK_ITEMS 0)
       else showQuickPick QUICK_PICK_ITEMS (toStringSafe placeHolder)) ;;
    match selectedItem with
    | Some selectedItem => Contracts.action selectedItem
    | None => ret tt
    end.

End QuickPick.

End Targets.

(** ** [src/pull.ts] *)

Module Pull.

Import Vscode.

(** [deploy_plugins.DownloadedFile]: what [read()], awaited, gives. *)
Record DownloadedFile : Type := {
  read : Outcome string
}.

(** The result of [toNameAndPath] when it is not [false]. *)
Record NameAndPath : Type := {
  np_name : string;
  np_path : string
}.

(** [deploy_plugins.SimpleFileToDownload] with its two callbacks. *)
Record SimpleFileToDownload : Type := {
  file : string;
  nameAndPath : NameAndPath;
  onBeforeDownload : option string -> Async Trace unit;
  onDownloadCompleted :
    option JsError -> option DownloadedFile -> Async Trace unit
}.

(** [deploy_plugins.DownloadContext] *)
Record DownloadContext : Type := {
  files : list SimpleFileToDownload;
  target : Targets.Target
}.

(** What a plugin does with a context it is given: it calls back into the
    descriptors, by position in [files], and then its promise settles. *)
Inductive PluginCall : Type :=
| BeforeDownload (i : nat) (destination : option string)
| DownloadCompleted (i : nat) (err : option JsError)
                    (downloadedFile : option DownloadedFile).

Record PluginRun : Type := {
  calls : list PluginCall;
  failure : option JsError
}.

Record Plugin : Type := {
  __index : nat;
  __type : string;
  canDownload : bool;
  downloadFiles : option (DownloadContext -> PluginRun)
}.

(** [deploy_packages.Package], by the name [getPackageName] gives it. *)
Record Package : Type := {
  packageName : string
}.

(** The workspace [ME] a pull runs in. *)
Record Workspace : Type := {
  folder : Targets.WorkspaceRef;
  plugins : list Plugin;                                (* ME.context.plugins *)
  toNameAndPath : string -> option NameAndPath;
  canBeHandledByMe : Targets.Target -> bool;
  canBeHandledByMe_package : Package -> bool;
  findFilesByFilter : Package -> list string;
  getTargets : list Targets.Target
}.

(** [Array.prototype.map] with a callback that has effects. *)
Fixpoint mapAsync {A B} (f : A -> Async Trace B) (l : list A)
  : Async Trace (list B) :=
  match l with
  | [] => ret []
  | a :: r => b <- f a ;; bs <- mapAsync f r ;; ret (b :: bs)
  end.

(** [.filter(f => null !== f)] *)
Definition nonNull {A} (l : list (option A)) : list A :=
  flat_map (fun x => match x with Some a => [a] | None => [] end) l.

Section WithFilesystem.

(** The filesystem collaborator: the error [writeFile] fails with, if
    it fails. *)
Variable writeFileError : string -> string -> option JsError.

Definition writeFile (file data : string) : Async Trace unit :=
  fun st =>
    (match writeFileError file data with
     | Some e => Rejected e
     | None => Resolved tt
     end,
     st ++ [WriteFile file data]).

(** The body of [SF.onBeforeDownload]. *)
Definition beforeDownload (f TARGET_NAME : string)
                          (destination : option string)
  : Async Trace unit :=
  append ("Pulling file '" ^^ f ^^ "' from '" ^^ TARGET_NAME ^^ "'... ").

(** The body of [SF.onDownloadCompleted]. *)
Definition downloadCompleted (f : string) (err : option JsError)
                             (downloadedFile : option DownloadedFile)
  : Async Trace unit :=
  try_catch
    (match err with
     | Some e => throw e
     | None =>
         match downloadedFile with
         | Some downloadedFile =>
             data <- (fun st => (read downloadedFile, st)) ;;
             writeFile f data
         | None => ret tt
         end ;;;
         appendLine "[OK]"
     end)
    (fun e => appendLine ("[ERROR: " ^^ e ^^ "]")).

(** The callback of [files.map]. *)
Definition toFileToDownload (ME : Workspace) (TARGET_NAME f : string)
  : Async Trace (option SimpleFileToDownload) :=
  match toNameAndPath ME f with
  | None =>
      append ("Cannot detect path information for file '" ^^ f ^^ "'!") ;;;
      ret None
  | Some NAME_AND_PATH =>
      ret (Some {| file := f;
                   nameAndPath := NAME_AND_PATH;
                   onBeforeDownload := beforeDownload f TARGET_NAME;
                   onDownloadCompleted := downloadCompleted f |})
  end.

(** One callback call made by a plugin. *)
Definition performCall (CTX : DownloadContext) (c : PluginCall)
  : Async Trace unit :=
  match c with
  | BeforeDownload i destination =>
      match nth_error (files CTX) i with
      | Some SF => onBeforeDownload SF destination
      | None => throw "TypeError: Cannot read properties of undefined"
      end
  | DownloadCompleted i err downloadedFile =>
      match nth_error (files CTX) i with
      | Some SF => onDownloadCompleted SF err downloadedFile
      | None => throw "TypeError: Cannot read properties of undefined"
      end
  end.

Fixpoint performCalls (CTX : DownloadContext) (cs : list PluginCall)
  : Async Trace unit :=
  match cs with
  | [] => ret tt
  | c :: r => performCall CTX c ;;; performCalls CTX r
  end.

(** [await Promise.resolve(PI.downloadFiles(CTX))] *)
Definition callDownloadFiles (PI : Plugin) (CTX : DownloadContext)
  : Async Trace unit :=
  match downloadFiles PI with
  | None =>
      emit (NotAFunction (__index PI)) ;;;
      throw "TypeError: PI.downloadFiles is not a function"
  | Some run =>
      emit (DownloadFiles (__index PI) (map file (files CTX))) ;;;
      performCalls CTX (calls (run CTX)) ;;;
      match failure (run CTX) with
      | Some e => throw e
      | None => ret tt
      end
  end.

(** The predicate of [ME.context.plugins.filter]. *)
Definition isMatching (TARGET_TYPE : string) (pi : Plugin) : bool :=
  String.eqb EmptyString (__type pi)
  || (String.eqb TARGET_TYPE (__type pi) && canDownload pi
      && match downloadFiles pi with Some _ => true | None => false end).

(** The body of the [while] loop: one plugin's turn. *)
Definition pullWith (ME : Workspace) (files : list string)
                    (target : Targets.Target) (TARGET_NAME : string)
                    (PI : Plugin)
  : Async Trace unit :=
  try_catch
    (appendLine EmptyString ;;;
     (if 1 <? length files
      then appendLine ("Start pulling files from '" ^^ TARGET_NAME ^^ "'...")
      else ret tt) ;;;
     mapped <- mapAsync (toFileToDownload ME TARGET_NAME) files ;;
     let CTX := {| files := nonNull mapped; target := target |} in
     callDownloadFiles PI CTX ;;;
     (if 1 <? length files
      then appendLine ("Pulling files from '" ^^ TARGET_NAME
                         ^^ "' has been finished.")
      else ret tt))
    (fun e =>
       appendLine ("[ERROR] Pulling from '" ^^ TARGET_NAME
                     ^^ "' failed: " ^^ e)).

(** [while (PLUGINS.length > 0) { const PI = PLUGINS.shift(); ... }] *)
Fixpoint pullLoop (ME : Workspace) (files : list string)
                  (target : Targets.Target) (TARGET_NAME : string)
                  (PLUGINS : list Plugin)
  : Async Trace unit :=
  match PLUGINS with
  | [] => ret tt
  | PI :: rest =>
      pullWith ME files target TARGET_NAME PI ;;;
      pullLoop ME files target TARGET_NAME rest
  end.

Definition pullFilesFrom (ME : Workspace) (files : list string)
                         (target : option Targets.Target)
                         (targetNr : option nat)
  : Async Trace unit :=
  if length files <? 1 then ret tt
  else
    match target with
    | None => ret tt
    | Some target =>
        let targetNr :=
          match targetNr with
          | None => Targets.__index target + 1
          | Some n => n
          end in
        let TARGET_NAME :=
          toStringSafe (Targets.getTargetName (Some target)) in
        let TARGET_TYPE := normalizeString (Targets.type target) in
        let PLUGINS := filter (isMatching TARGET_TYPE) (plugins ME) in
        if length PLUGINS <? 1 then
          showWarningMessage "No matching PLUGINS found!"
        else
          pullLoop ME files target TARGET_NAME PLUGINS
    end.

Definition pullFileFrom (ME : Workspace) (file : string)
                        (target : option Targets.Target)
  : Async Trace unit :=
  match target with
  | None => ret tt
  | Some target =>
      if negb (canBeHandledByMe ME target) then
        throw ("File '" ^^ file ^^ "' cannot be pulled to workspace '"
                 ^^ Targets.fsPath (folder ME) ^^ "'!")
      else
        pullFilesFrom ME [file] (Some target)
                      (Some (Targets.__index target + 1))
  end.

Section WithQuickPick.

Variable chooseQuickPick : list QuickPickItem -> string -> option nat.

(** [ME.getTargets().map((t, i) => ...)], from position [i]. *)
Fixpoint targetItems (ME : Workspace) (FILES_TO_PULL : list string)
                     (i : nat) (targets : list Targets.Target)
  : list Contracts.ActionQuickPick :=
  match targets with
  | [] => []
  | g :: r =>
      {| Contracts.action :=
           pullFilesFrom ME FILES_TO_PULL (Some g) (Some (i + 1));
         Contracts.item :=
           {| description :=
                trim (toStringSafe (Targets.description g));
              detail := Targets.fsPath (Targets.__workspace g);
              label := Targets.getTargetName (Some g) |} |}
      :: targetItems ME FILES_TO_PULL (S i) r
  end.

Definition pullPackage (ME : Workspace) (pkg : option Package)
  : Async Trace unit :=
  match pkg with
  | None => ret tt
  | Some pkg =>
      if negb (canBeHandledByMe_package ME pkg) then
        throw ("Package '" ^^ packageName pkg
                 ^^ "' cannot be pulled into workspace '"
                 ^^ Targets.fsPath (folder ME) ^^ "'!")
      else
        let FILES_TO_PULL := findFilesByFilter ME pkg in
        if length FILES_TO_PULL <? 1 then
          showWarningMessage "No FILES found!"
        else
          let QUICK_PICK_ITEMS :=
            targetItems ME FILES_TO_PULL 0 (getTargets ME) in
          if length QUICK_PICK_ITEMS <? 1 then
            showWarningMessage "No TARGETS found!"
          else
            selectedItem <-
              (if 1 =? length QUICK_PICK_ITEMS
               then ret (nth_error QUICK_PICK_ITEMS 0)
               else Targets.showQuickPick chooseQuickPick
                      QUICK_PICK_ITEMS
                      "Select the TARGET to pull from...") ;;
            match selectedItem with
            | Some selectedItem => Contracts.action selectedItem
            | None => ret tt
            end
  end.

End WithQuickPick.

End WithFilesystem.

End Pull.

(** ** What a run shows *)

Module Observations.

Import Vscode Pull.

(** The outcome and the calls of a computation that starts with no call
    made yet. *)
Definition outcomeOf {A} (m : Async Trace A) : Outcome A := fst (m []).

Definition eventsOf {A} (m : Async Trace A) : list Event := snd (m []).

(** A computation that adds its calls to those made before, and does
    nothing else with them. *)
Definition appending {A} (m : Async Trace A) : Prop :=
  forall st, m st = (outcomeOf m, st ++ eventsOf m).

(** The turns plugins got, oldest first: the plugin, and the files of the
    context its [downloadFiles] was entered with, if it has the method. *)
Fixpoint dispatchesOf (evs : list Event) : list (nat * option (list string)) :=
  match evs with
  | [] => []
  | DownloadFiles plugin files :: r => (plugin, Some files) :: dispatchesOf r
  | NotAFunction plugin :: r => (plugin, None) :: dispatchesOf r
  | _ :: r => dispatchesOf r
  end.

(** The calls of [downloadFiles] that were entered. *)
Definition downloadsOf (evs : list Event) : list (nat * list string) :=
  flat_map (fun d => match snd d with
                     | Some files => [(fst d, files)]
                     | None => []
                     end)
           (dispatchesOf evs).

Definition isResolvable (ME : Workspace) (f : string) : bool :=
  match toNameAndPath ME f with
  | Some _ => true
  | None => false
  end.

Definition hasDownloadFiles (pi : Plugin) : bool :=
  match downloadFiles pi with
  | Some _ => true
  | None => false
  end.

(** The descriptors [files.map(...).filter(f => null !== f)] holds. *)
Definition descriptorsOf (writeFileError : string -> string -> option JsError)
                         (ME : Workspace) (TARGET_NAME : string)
                         (files : list string)
  : list SimpleFileToDownload :=
  flat_map
    (fun f =>
       match toNameAndPath ME f with
       | None => []
       | Some NAME_AND_PATH =>
           [{| file := f;
               nameAndPath := NAME_AND_PATH;
               onBeforeDownload := beforeDownload f TARGET_NAME;
               onDownloadCompleted := downloadCompleted writeFileError f |}]
       end)
    files.

(** A descriptor whose callbacks are the two closures of [pullFilesFrom]. *)
Definition builtFor (writeFileError : string -> string -> option JsError)
                    (TARGET_NAME : string) (SF : SimpleFileToDownload)
  : Prop :=
  onBeforeDownload SF = beforeDownload (file SF) TARGET_NAME
  /\ onDownloadCompleted SF = downloadCompleted writeFileError (file SF).

(** What the two callbacks of a descriptor can add: text on the current
    line, a line that starts with a bracket, a file written. *)
Definition isCallbackEvent (e : Event) : Prop :=
  match e with
  | Append _ => True
  | AppendLine s => exists r, s = String "[" r
  | WriteFile _ _ => True
  | _ => False
  end.

(** A computation that only adds calls, all of them of that kind. *)
Definition quiet {A} (m : Async Trace A) : Prop :=
  appending m /\ Forall isCallbackEvent (eventsOf m).

(** The lines logged for the files without path information. *)
Definition unresolvedLog (ME : Workspace) (files : list string)
  : list Event :=
  map (fun f =>
         Append ("Cannot detect path information for file '" ^^ f ^^ "'!"))
      (filter (fun f => negb (isResolvable ME f)) files).

(** The calls of one plugin's turn, written out: the empty line, the start
    banner of a batch of several files, the lines for the files without
    path information, the plugin's call with what it calls back, and then
    the finish banner or the line for the error the call failed with. *)
Definition turnEvents (writeFileError : string -> string -> option JsError)
                      (ME : Workspace) (files : list string)
                      (target : Targets.Target) (TARGET_NAME : string)
                      (PI : Plugin)
  : list Event :=
  let CTX := {| files := descriptorsOf writeFileError ME TARGET_NAME files;
                target := target |} in
  [AppendLine EmptyString]
  ++ (if 1 <? length files
      then [AppendLine ("Start pulling files from '" ^^ TARGET_NAME ^^ "'...")]
      else [])
  ++ unresolvedLog ME files
  ++ eventsOf (callDownloadFiles PI CTX)
  ++ match outcomeOf (callDownloadFiles PI CTX) with
     | Resolved _ =>
         if 1 <? length files
         then [AppendLine ("Pulling files from '" ^^ TARGET_NAME
                             ^^ "' has been finished.")]
         else []
     | Rejected e =>
         [AppendLine ("[ERROR] Pulling from '" ^^ TARGET_NAME
                        ^^ "' failed: " ^^ e)]
     end.

(** The name, the type and the plugins [pullFilesFrom] works with. *)
Definition targetNameOf (target : Targets.Target) : string :=
  toStringSafe (Targets.getTargetName (Some target)).

Definition matchingPlugins (ME : Workspace) (target : Targets.Target)
  : list Plugin :=
  filter (isMatching (normalizeString (Targets.type target))) (plugins ME).

(** A computation that only adds calls, all of them with property [P]. *)
Definition emitsOnly {A} (P : Event -> Prop) (m : Async Trace A) : Prop :=
  appending m /\ Forall P (eventsOf m).

(** The calls of a transfer: output, a plugin's turn, and the writing of
    one of the files in [allowed]. *)
Definition isTransferEvent (allowed : list string) (e : Event) : Prop :=
  match e with
  | Append _ | AppendLine _ | DownloadFiles _ _ | NotAFunction _ => True
  | WriteFile f _ => In f allowed
  | ShowWarningMessage _ | ShowQuickPick _ _ => False
  end.

(** A call that is no banner: any call but a line, the empty line, or a
    line that starts with a bracket. *)
Definition isTerse (e : Event) : Prop :=
  match e with
  | AppendLine s => s = EmptyString \/ exists r, s = String "[" r
  | _ => True
  end.

(** The quick pick item both selection flows make of a target. *)
Definition itemFor (g : Targets.Target) : QuickPickItem :=
  {| description := trim (toStringSafe (Targets.description g));
     detail := Targets.fsPath (Targets.__workspace g);
     label := Targets.getTargetName (Some g) |}.

End Observations.

(** ** What a chain leaves behind *)

Module Histories.

Import Targets.

(** Executor calls that form the history of one run: every context carries
    the event and the target of the run and no arguments, its type is the
    normalized type of its operation and selects the executor called, and
    its previous context is the context of the call before it. *)
Fixpoint linked (target : Target) (ev : TargetOperationEvent)
                (prev : option TargetOperationExecutionContext)
                (calls : list (TargetOperationExecutor
                               * TargetOperationExecutionContext))
  : Prop :=
  match calls with
  | [] => True
  | (e, c) :: r =>
      ctx_previousOperation c = prev
      /\ ctx_event c = ev
      /\ ctx_target c = target
      /\ ctx_args c = []
      /\ ctx_type c = normalizeString (op_type (ctx_operation c))
      /\ executorOf (ctx_type c) = Some e
      /\ linked target ev (Some c) r
  end.

(** An executor call that resolved to something other than [false]. *)
Definition letsContinue
             (executors : TargetOperationExecutor ->
                          TargetOperationExecutionContext -> ExecutorRun)
             (call : TargetOperationExecutor * TargetOperationExecutionContext)
  : Prop :=
  exists r,
    settled (executors (fst call) (snd call)) = Resolved r
    /\ r <> ResultBoolean false.

(** An entry the loop body passes over: a string that is empty, an
    operation whose condition does not hold, an operation of a type without
    an executor. *)
Definition isPassedOver (evalCondition : string -> bool)
                        (v : TargetOperationValue) : Prop :=
  match v with
  | OperationString s => isEmptyString s = true
  | OperationObject o =>
      (exists c, op_if o = Some c /\ evalCondition c = false)
      \/ executorOf (normalizeString (op_type o)) = None
  end.

(** The entries of a chain that have an executor to call. *)
Definition hasExecutor (evalCondition : string -> bool)
                       (v : TargetOperationValue) : bool :=
  match dispatchOf evalCondition v with
  | Some _ => true
  | None => false
  end.

End Histories.

(** ** Sample data *)

Module Samples.

Import Targets.

Definition workspace : WorkspaceRef :=
  {| fsPath := "/home/dev/site"; t := fun key _ => key |}.

(** The structured operation [{type: "open", target: s}]. *)
Definition openOperation (s : string) : TargetOperation :=
  {| op_type := Some "open"; op_target := Some s; op_if := None |}.

(** A target with a chain of three operations before a deployment. *)
Definition chainTarget : Target :=
  {| name := Some "srv";
     type := Some "sftp";
     description := None;
     beforeDeploy := Many [OperationString "a.txt";
                           OperationObject (openOperation "b.txt");
                           OperationString "c.txt"];
     deployed := Absent;
     __index := 0;
     __workspace := workspace |}.

Definition idle : State :=
  {| isInFinalizeState := false; invocations := [] |}.

Definition noCondition (c : string) : bool := true.

(** Executors of which the first one called has no opinion and every
    later one returns [false]. *)
Definition abortSecond (e : TargetOperationExecutor)
                       (c : TargetOperationExecutionContext) : ExecutorRun :=
  match ctx_previousOperation c with
  | None => {| settled := Resolved ResultVoid; finalizing := false |}
  | Some _ => {| settled := Resolved (ResultBoolean false);
                 finalizing := false |}
  end.

(** Executors during whose run the workspace starts to finalize. *)
Definition finalizeMeanwhile (e : TargetOperationExecutor)
                             (c : TargetOperationExecutionContext)
  : ExecutorRun :=
  {| settled := Resolved (ResultBoolean true); finalizing := true |}.

(** Executors that go well. *)
Definition allFine (e : TargetOperationExecutor)
                   (c : TargetOperationExecutionContext) : ExecutorRun :=
  {| settled := Resolved ResultNull; finalizing := false |}.

(** A chain in which nothing is to be executed. *)
Definition idleTarget : Target :=
  {| name := Some "  Staging ";
     type := None;
     description := None;
     beforeDeploy := Absent;
     deployed := Many [OperationString "   ";
                       OperationObject {| op_type := Some "unzip";
                                          op_target := Some "a.zip";
                                          op_if := None |};
                       OperationObject {| op_type := Some "open";
                                          op_target := Some "a.txt";
                                          op_if := Some "false" |}];
     __index := 2;
     __workspace := workspace |}.

(** Conditions, of which the one that reads [false] does not hold. *)
Definition literalCondition (c : string) : bool :=
  negb (String.eqb c "false").


(** A filesystem in which one file cannot be written. *)
Definition lockedFile (file data : string) : option JsError :=
  if String.eqb file "locked.txt" then Some "EACCES: permission denied"
  else None.

(** A plugin of type [sftp] that announces and completes the first file
    of the batch, and then fails. *)
Definition sftp : Pull.Plugin :=
  {| Pull.__index := 0;
     Pull.__type := "sftp";
     Pull.canDownload := true;
     Pull.downloadFiles :=
       Some (fun CTX =>
               {| Pull.calls :=
                    [Pull.BeforeDownload 0 None;
                     Pull.DownloadCompleted
                       0 None (Some {| Pull.read := Resolved "<html>" |})];
                  Pull.failure := Some "connection lost" |}) |}.

(** A plugin of another type. *)
Definition ftp : Pull.Plugin :=
  {| Pull.__index := 1;
     Pull.__type := "ftp";
     Pull.canDownload := true;
     Pull.downloadFiles :=
       Some (fun CTX => {| Pull.calls := []; Pull.failure := None |}) |}.

(** A plugin for every type, which cannot download. *)
Definition inspector : Pull.Plugin :=
  {| Pull.__index := 2;
     Pull.__type := EmptyString;
     Pull.canDownload := false;
     Pull.downloadFiles := None |}.

(** A second plugin of type [sftp], which reports an error for the first
    file and completes the second. *)
Definition mirror : Pull.Plugin :=
  {| Pull.__index := 3;
     Pull.__type := "sftp";
     Pull.canDownload := true;
     Pull.downloadFiles :=
       Some (fun CTX =>
               {| Pull.calls :=
                    [Pull.DownloadCompleted 0 (Some "not found") None;
                     Pull.BeforeDownload 1 None;
                     Pull.DownloadCompleted
                       1 None (Some {| Pull.read := Resolved "body {}" |})];
                  Pull.failure := None |}) |}.

(** A workspace with these four plugins, in which [ghost.txt] has no path
    information, and whose targets are those of [targets]. *)
Definition site (targets : list Target) : Pull.Workspace :=
  {| Pull.folder := workspace;
     Pull.plugins := [sftp; ftp; inspector; mirror];
     Pull.toNameAndPath :=
       fun f => if String.eqb f "ghost.txt" then None
                else Some {| Pull.np_name := f; Pull.np_path := "/" |};
     Pull.canBeHandledByMe := fun _ => true;
     Pull.canBeHandledByMe_package := fun _ => true;
     Pull.findFilesByFilter := fun _ => ["index.html"; "style.css"];
     Pull.getTargets := targets |}.

(** A second target, without a name. *)
Definition backupTarget : Target :=
  {| name := None;
     type := Some "ftp";
     description := Some " nightly ";
     beforeDeploy := Absent;
     deployed := Absent;
     __index := 1;
     __workspace := workspace |}.

Definition release : Pull.Package := {| Pull.packageName := "release" |}.

(** A workspace that handles neither targets nor packages. *)
Definition foreignSite : Pull.Workspace :=
  {| Pull.folder := workspace;
     Pull.plugins := [sftp];
     Pull.toNameAndPath := fun _ => None;
     Pull.canBeHandledByMe := fun _ => false;
     Pull.canBeHandledByMe_package := fun _ => false;
     Pull.findFilesByFilter := fun _ => ["index.html"];
     Pull.getTargets := [chainTarget] |}.

(** A user who picks the second item, and one who dismisses the pick. *)
Definition pickSecond (items : list Vscode.QuickPickItem)
                      (placeHolder : string) : option nat := Some 1.

Definition dismiss (items : list Vscode.QuickPickItem)
                   (placeHolder : string) : option nat := None.

End Samples.

(** ** Readings of the specification that the code is compared with *)

Module Readings.

Import Targets.

(** "A bare string operation value is equivalent to a structured operation
    [{type: "open", target: s}]: both produce identical executor
    invocation", for one entry of a chain and a non-empty string. *)
Definition bare_string_same_invocation : Prop :=
  forall executors evalCondition target ev prev s st,
    s <> EmptyString ->
    isInFinalizeState st = false ->
    invocations
      (snd (executeLoop executors evalCondition target ev prev
                        [OperationString s] st))
    = invocations
        (snd (executeLoop executors evalCondition target ev prev
                          [OperationObject (Samples.openOperation s)] st)).

(** "Whose normalized type either exactly matches the target's normalized
    type" and that has the download capability, "or is the universal
    wildcard". *)
Definition matchesAsWorded (TARGET_TYPE : string) (pi : Pull.Plugin) : Prop :=
  Pull.__type pi = EmptyString
  \/ (Pull.__type pi = TARGET_TYPE
      /\ Pull.canDownload pi = true
      /\ Pull.downloadFiles pi <> None).

(** "For a single-file batch no per-file start message is logged." *)
Definition no_start_message_for_single_file : Prop :=
  forall writeFileError ME f target targetNr,
    ~ In (Vscode.Append ("Pulling file '" ^^ f ^^ "' from '"
                           ^^ Observations.targetNameOf target ^^ "'... "))
         (Observations.eventsOf
            (Pull.pullFilesFrom writeFileError ME [f] (Some target)
                                targetNr)).

End Readings.

(** * Properties *)

(** ** The monad *)

Lemma bind_resolved {S A B} (m : Async S A) (k : A -> Async S B) st a st' :
  m st = (Resolved a, st') -> bind m k st = k a st'.
Proof. intros H. unfold bind. now rewrite H. Qed.

Lemma bind_rejected {S A B} (m : Async S A) (k : A -> Async S B) st e st' :
  m st = (Rejected e, st') -> bind m k st = (Rejected e, st').
Proof. intros H. unfold bind. now rewrite H. Qed.

(** ** The operation chain of [executeTargetOperations] *)

Section ChainFacts.

Import Targets.

Variable executors :
  TargetOperationExecutor -> TargetOperationExecutionContext -> ExecutorRun.
Variable evalCondition : string -> bool.

Local Abbreviation loop := (executeLoop executors evalCondition).
Local Abbreviation run := (executeTargetOperations executors evalCondition).
Local Abbreviation dispatch := (dispatchOf evalCondition).

(** An iteration that finds the flag set returns [false] and leaves the
    state as it was. *)
Lemma executeLoop_finalizing target ev prev v rest st :
  isInFinalizeState st = true ->
  loop target ev prev (v :: rest) st = (Resolved (Some false), st).
Proof. intros H. cbn [executeLoop]. now rewrite H. Qed.

(** An iteration whose entry reaches a [continue] goes on with the rest,
    the previous context unchanged. *)
Lemma executeLoop_skip target ev prev v rest st :
  isInFinalizeState st = false ->
  dispatch v = None ->
  loop target ev prev (v :: rest) st = loop target ev prev rest st.
Proof.
  intros Hf Hd. cbn [executeLoop]. rewrite Hf.
  unfold dispatchOf in Hd.
  destruct (firstOrDefault _) as [o|]; [|reflexivity].
  destruct (executorOf _); [discriminate|reflexivity].
Qed.

(** An iteration whose entry has an executor calls it with a fresh
    context, and goes on unless the result is [false]. *)
Lemma executeLoop_invoke target ev prev v rest st o e :
  isInFinalizeState st = false ->
  dispatch v = Some (o, e) ->
  loop target ev prev (v :: rest) st =
  let CTX := Context [] ev o prev target (normalizeString (op_type o)) in
  (r <- apply executors e CTX ;;
   if negb (toBooleanSafe r true) then ret (Some false)
   else loop target ev (Some CTX) rest) st.
Proof.
  intros Hf Hd. cbn [executeLoop]. rewrite Hf.
  unfold dispatchOf in Hd.
  destruct (firstOrDefault _) as [o'|]; [|discriminate].
  destruct (executorOf _) as [e'|]; [|discriminate].
  now inversion Hd; subst.
Qed.

(** The loop never resolves to [undefined]. *)
Lemma executeLoop_boolean target ev ops :
  forall prev st, fst (loop target ev prev ops st) <> Resolved None.
Proof.
  induction ops as [|v rest IH]; intros prev st.
  - cbn. discriminate.
  - cbn [executeLoop].
    destruct (isInFinalizeState st); [cbn; discriminate|].
    destruct (firstOrDefault _) as [o|]; [|apply IH].
    destruct (executorOf _) as [e|]; [|apply IH].
    unfold bind, apply.
    destruct (settled _) as [r|err]; [|cbn; discriminate].
    destruct (negb _); [cbn; discriminate|apply IH].
Qed.

(** A chain [pre ++ rest] whose first part runs to its end goes on with
    [rest] from the state the first part left; a first part that stops
    stops the whole chain. *)
Lemma executeLoop_app target ev pre rest :
  forall prev st,
    match loop target ev prev pre st with
    | (Resolved (Some true), st1) =>
        exists prev',
          loop target ev prev (pre ++ rest) st = loop target ev prev' rest st1
    | (r, st1) => loop target ev prev (pre ++ rest) st = (r, st1)
    end.
Proof.
  induction pre as [|v pre IH]; intros prev st.
  - cbn. now exists prev.
  - cbn [executeLoop app].
    destruct (isInFinalizeState st); [reflexivity|].
    destruct (firstOrDefault _) as [o|]; [|apply IH].
    destruct (executorOf _) as [e|]; [|apply IH].
    unfold bind, apply.
    destruct (settled _) as [r|err]; [|reflexivity].
    destruct (negb _); [reflexivity|apply IH].
Qed.

(** C2.  In a chain of at least three operations whose first two have
    executors, when the executor of the first lets the chain go on and the
    executor of the second resolves to [false], the executors of the first
    and the second operation are the only ones called, in this order, and
    the call returns [false]. *)
Theorem second_operation_false_aborts_chain
        target ev v1 v2 v3 later st o1 e1 o2 e2 r1 :
  let CTX1 := Context [] ev o1 None target (normalizeString (op_type o1)) in
  let CTX2 :=
    Context [] ev o2 (Some CTX1) target (normalizeString (op_type o2)) in
  asArray match ev with
          | AfterDeployed => deployed target
          | BeforeDeploy => beforeDeploy target
          end = v1 :: v2 :: v3 :: later ->
  isInFinalizeState st = false ->
  dispatchOf evalCondition v1 = Some (o1, e1) ->
  dispatchOf evalCondition v2 = Some (o2, e2) ->
  executors e1 CTX1 = {| settled := Resolved r1; finalizing := false |} ->
  r1 <> ResultBoolean false ->
  settled (executors e2 CTX2) = Resolved (ResultBoolean false) ->
  exists st',
    executeTargetOperations executors evalCondition (Some target) ev st
    = (Resolved (Some false), st')
    /\ invocations st' = invocations st ++ [(e1, CTX1); (e2, CTX2)].
Proof.
  intros CTX1 CTX2 Hops Hf Hd1 Hd2 Hx1 Hr1 Hx2.
  unfold executeTargetOperations. rewrite Hops.
  rewrite (executeLoop_invoke _ _ _ _ _ _ _ _ Hf Hd1). cbv zeta.
  fold CTX1. unfold bind at 1. unfold apply at 1. rewrite Hx1.
  cbn [settled finalizing].
  assert (Hgo : negb (toBooleanSafe r1 true) = false).
  { destruct r1 as [| |[|]]; try reflexivity. now elim Hr1. }
  rewrite Hgo.
  match goal with |- context [loop _ _ _ _ ?s] => set (st1 := s) end.
  assert (Hf1 : isInFinalizeState st1 = false).
  { subst st1. cbn. rewrite Hf. reflexivity. }
  rewrite (executeLoop_invoke _ _ _ _ _ _ _ _ Hf1 Hd2). cbv zeta.
  fold CTX2. unfold bind, apply. rewrite Hx2. cbn.
  eexists. split; [reflexivity|].
  cbn. now rewrite <- app_assoc.
Qed.

(** C3.  When the operations before an entry have run to their end and
    have left the workspace in its finalize state, the iteration of that
    entry returns [false] at once: the state, and with it the list of
    executor calls, is the one those earlier operations left, so neither
    this entry nor a later one is executed. *)
Theorem finalize_flag_stops_chain target ev pre v rest st st1 :
  asArray match ev with
          | AfterDeployed => deployed target
          | BeforeDeploy => beforeDeploy target
          end = pre ++ v :: rest ->
  executeLoop executors evalCondition target ev None pre st
  = (Resolved (Some true), st1) ->
  isInFinalizeState st1 = true ->
  executeTargetOperations executors evalCondition (Some target) ev st
  = (Resolved (Some false), st1).
Proof.
  intros Hops Hpre Hfin.
  unfold executeTargetOperations. rewrite Hops.
  pose proof (executeLoop_app target ev pre (v :: rest) None st) as Happ.
  rewrite Hpre in Happ. destruct Happ as [prev' ->].
  now apply executeLoop_finalizing.
Qed.

(** C4, as amended.  A bare string that is not empty and the structured
    operation [{type: "open", target: s}] are both handed to the built-in
    open executor, once, with the same arguments, event, previous context,
    target and payload; the operation type and the normalized type of the
    context are the empty string for the bare string and ["open"] for the
    structured operation. *)
Theorem bare_string_dispatches_to_open_executor target ev prev s st :
  isInFinalizeState st = false ->
  isEmptyString s = false ->
  invocations
    (snd (executeLoop executors evalCondition target ev prev
                      [OperationString s] st))
  = invocations st
    ++ [(OpenExecute,
         Context [] ev
                 {| op_type := Some EmptyString; op_target := Some s;
                    op_if := None |}
                 prev target EmptyString)]
  /\ invocations
       (snd (executeLoop executors evalCondition target ev prev
                  [OperationObject (Samples.openOperation s)] st))
     = invocations st
       ++ [(OpenExecute,
            Context [] ev
                    {| op_type := Some "open"; op_target := Some s;
                       op_if := None |}
                    prev target "open")].
Proof.
  intros Hf Hs. split.
  - rewrite (executeLoop_invoke _ _ _ _ _ _
               {| op_type := Some EmptyString; op_target := Some s;
                  op_if := None |}
               OpenExecute Hf).
    + cbv zeta. unfold bind, apply.
      destruct (settled _) as [r|err]; [|reflexivity].
      destruct (negb _); reflexivity.
    + unfold dispatchOf, operationOf, toStringSafe. rewrite Hs. reflexivity.
  - rewrite (executeLoop_invoke _ _ _ _ _ _
               (Samples.openOperation s) OpenExecute Hf).
    + cbv zeta. unfold bind, apply.
      destruct (settled _) as [r|err]; [|reflexivity].
      destruct (negb _); reflexivity.
    + reflexivity.
Qed.

(** C10.  Without a target the call resolves to [undefined] and leaves
    the state untouched, whatever the state is; with a target it never
    resolves to [undefined], so the boolean result holds for a target that
    is there. *)
Theorem missing_target_returns_undefined :
  (forall ev st,
      executeTargetOperations executors evalCondition None ev st
      = (Resolved None, st))
  /\ (forall target ev st,
        fst (executeTargetOperations executors evalCondition (Some target)
                                     ev st)
        <> Resolved None).
Proof.
  split.
  - reflexivity.
  - intros target ev st. apply executeLoop_boolean.
Qed.

End ChainFacts.

Lemma finalize_flag_stops_chain_witness :
  Targets.executeTargetOperations Samples.finalizeMeanwhile Samples.noCondition
    (Some Samples.chainTarget) Targets.BeforeDeploy Samples.idle
  = (Resolved (Some false),
     {| Targets.isInFinalizeState := true;
        Targets.invocations :=
          [(Targets.OpenExecute,
            Targets.Context [] Targets.BeforeDeploy
              {| Targets.op_type := Some EmptyString;
               Targets.op_target := Some "a.txt";
                 Targets.op_if := None |}
              None Samples.chainTarget EmptyString)] |}).
Proof.
  apply (finalize_flag_stops_chain
           Samples.finalizeMeanwhile Samples.noCondition
           Samples.chainTarget Targets.BeforeDeploy
           [Targets.OperationString "a.txt"]
           (Targets.OperationObject (Samples.openOperation "b.txt"))
           [Targets.OperationString "c.txt"]);
    reflexivity.
Defined.

Lemma bare_string_dispatches_to_open_executor_witness :
  Targets.invocations
    (snd (Targets.executeLoop Samples.allFine Samples.noCondition
            Samples.chainTarget Targets.AfterDeployed None
            [Targets.OperationString "C:\file.txt"] Samples.idle))
  = [(Targets.OpenExecute,
      Targets.Context [] Targets.AfterDeployed
        {| Targets.op_type := Some EmptyString;
           Targets.op_target := Some "C:\file.txt";
           Targets.op_if := None |}
        None Samples.chainTarget EmptyString)].
Proof.
  apply (proj1 (bare_string_dispatches_to_open_executor
                  Samples.allFine Samples.noCondition
                  Samples.chainTarget Targets.AfterDeployed None
                  "C:\file.txt" Samples.idle eq_refl eq_refl)).
Defined.

(** C4, as the specification words it, fails: the two contexts differ in
    their type. *)
Lemma bare_string_same_invocation_fails :
  ~ Readings.bare_string_same_invocation.
Proof.
  intros H.
  specialize (H Samples.allFine Samples.noCondition Samples.chainTarget
                Targets.BeforeDeploy None "C:\file.txt" Samples.idle).
  cbv in H.
  assert (Hne : "C:\file.txt" <> EmptyString) by discriminate.
  specialize (H Hne eq_refl). discriminate H.
Qed.

Lemma second_operation_false_aborts_chain_witness :
  exists st',
    Targets.executeTargetOperations Samples.abortSecond Samples.noCondition
      (Some Samples.chainTarget) Targets.BeforeDeploy Samples.idle
    = (Resolved (Some false), st')
    /\ length (Targets.invocations st') = 2.
Proof.
  destruct (second_operation_false_aborts_chain
              Samples.abortSecond Samples.noCondition
              Samples.chainTarget Targets.BeforeDeploy
              (Targets.OperationString "a.txt")
              (Targets.OperationObject (Samples.openOperation "b.txt"))
              (Targets.OperationString "c.txt") [] Samples.idle
              {| Targets.op_type := Some EmptyString;
               Targets.op_target := Some "a.txt";
                 Targets.op_if := None |}
              Targets.OpenExecute
              (Samples.openOperation "b.txt") Targets.OpenExecute
              Targets.ResultVoid)
    as [st' [Hrun Hinv]];
    try reflexivity; try discriminate.
  exists st'. split; [exact Hrun|]. rewrite Hinv. reflexivity.
Defined.

(** ** Computations that only add calls *)

Section Appending.

Import Vscode Observations.

Lemma appending_ret {A} (a : A) : appending (ret a).
Proof. intros st. cbn. now rewrite app_nil_r. Qed.

Lemma appending_throw {A} e : appending (@throw Trace A e).
Proof. intros st. cbn. now rewrite app_nil_r. Qed.

Lemma appending_emit e : appending (emit e).
Proof. intros st. reflexivity. Qed.

Lemma appending_bind {A B} (m : Async Trace A) (k : A -> Async Trace B) :
  appending m -> (forall a, appending (k a)) -> appending (bind m k).
Proof.
  intros Hm Hk st. unfold outcomeOf, eventsOf, bind.
  rewrite (Hm st), (Hm []). cbn.
  destruct (outcomeOf m) as [a|e].
  - rewrite (Hk a (st ++ eventsOf m)), (Hk a (eventsOf m)). cbn.
    now rewrite app_assoc.
  - reflexivity.
Qed.

Lemma appending_try_catch {A} (m : Async Trace A) h :
  appending m -> (forall e, appending (h e)) -> appending (try_catch m h).
Proof.
  intros Hm Hh st. unfold outcomeOf, eventsOf, try_catch.
  rewrite (Hm st), (Hm []). cbn.
  destruct (outcomeOf m) as [a|e].
  - reflexivity.
  - rewrite (Hh e (st ++ eventsOf m)), (Hh e (eventsOf m)). cbn.
    now rewrite app_assoc.
Qed.

(** The calls of a sequence are those of its first part followed by those
    of what runs after it. *)
Lemma eventsOf_bind {A B} (m : Async Trace A) (k : A -> Async Trace B) :
  appending m -> (forall a, appending (k a)) ->
  eventsOf (bind m k)
  = eventsOf m ++ match outcomeOf m with
                  | Resolved a => eventsOf (k a)
                  | Rejected _ => []
                  end.
Proof.
  intros Hm Hk. unfold eventsOf at 1, bind. rewrite (Hm []). cbn.
  destruct (outcomeOf m) as [a|e].
  - now rewrite (Hk a).
  - now rewrite app_nil_r.
Qed.

Lemma outcomeOf_bind {A B} (m : Async Trace A) (k : A -> Async Trace B) :
  appending m -> (forall a, appending (k a)) ->
  outcomeOf (bind m k)
  = match outcomeOf m with
    | Resolved a => outcomeOf (k a)
    | Rejected e => Rejected e
    end.
Proof.
  intros Hm Hk. unfold outcomeOf at 1, bind. rewrite (Hm []). cbn.
  destruct (outcomeOf m) as [a|e]; [|reflexivity].
  now rewrite (Hk a).
Qed.

Lemma eventsOf_try_catch {A} (m : Async Trace A) h :
  appending m -> (forall e, appending (h e)) ->
  eventsOf (try_catch m h)
  = eventsOf m ++ match outcomeOf m with
                  | Resolved _ => []
                  | Rejected e => eventsOf (h e)
                  end.
Proof.
  intros Hm Hh. unfold eventsOf at 1, try_catch. rewrite (Hm []). cbn.
  destruct (outcomeOf m) as [a|e].
  - now rewrite app_nil_r.
  - now rewrite (Hh e).
Qed.

Lemma outcomeOf_try_catch {A} (m : Async Trace A) h :
  appending m -> (forall e, appending (h e)) ->
  outcomeOf (try_catch m h)
  = match outcomeOf m with
    | Resolved a => Resolved a
    | Rejected e => outcomeOf (h e)
    end.
Proof.
  intros Hm Hh. unfold outcomeOf at 1, try_catch. rewrite (Hm []). cbn.
  destruct (outcomeOf m) as [a|e]; [reflexivity|].
  now rewrite (Hh e).
Qed.

Lemma dispatchesOf_app a b :
  dispatchesOf (a ++ b) = dispatchesOf a ++ dispatchesOf b.
Proof.
  induction a as [|e a IH]; [reflexivity|].
  destruct e; cbn; now rewrite ?IH.
Qed.

End Appending.

Section Quiet.

Import Vscode Observations.

Lemma quiet_ret {A} (a : A) : quiet (ret a).
Proof. split; [apply appending_ret|constructor]. Qed.

Lemma quiet_throw {A} e : quiet (@throw Trace A e).
Proof. split; [apply appending_throw|constructor]. Qed.

Lemma quiet_bind {A B} (m : Async Trace A) (k : A -> Async Trace B) :
  quiet m -> (forall a, quiet (k a)) -> quiet (bind m k).
Proof.
  intros [Hm Hqm] Hk. split.
  - apply appending_bind; [exact Hm|]. intros a. apply Hk.
  - rewrite eventsOf_bind; [|exact Hm|intros a; apply Hk].
    apply Forall_app. split; [exact Hqm|].
    destruct (outcomeOf m) as [a|e]; [apply Hk|constructor].
Qed.

Lemma quiet_try_catch {A} (m : Async Trace A) h :
  quiet m -> (forall e, quiet (h e)) -> quiet (try_catch m h).
Proof.
  intros [Hm Hqm] Hh. split.
  - apply appending_try_catch; [exact Hm|]. intros e. apply Hh.
  - rewrite eventsOf_try_catch; [|exact Hm|intros e; apply Hh].
    apply Forall_app. split; [exact Hqm|].
    destruct (outcomeOf m) as [a|e]; [constructor|apply Hh].
Qed.

Lemma quiet_emit e : isCallbackEvent e -> quiet (emit e).
Proof.
  intros He. split; [apply appending_emit|].
  constructor; [exact He|constructor].
Qed.

Lemma quiet_append s : quiet (append s).
Proof. now apply quiet_emit. Qed.

Lemma quiet_appendLine r : quiet (appendLine (String "[" r)).
Proof. apply quiet_emit. now exists r. Qed.

(** None of these calls is a plugin's turn. *)
Lemma callback_events_no_dispatch evs :
  Forall isCallbackEvent evs -> dispatchesOf evs = [].
Proof.
  induction 1 as [|e evs He _ IH]; [reflexivity|].
  destruct e; cbn in *; try exact IH; contradiction.
Qed.

End Quiet.

(** ** Pulling files *)

Section PullFacts.

Import Vscode Pull Observations.

Variable writeFileError : string -> string -> option JsError.

Local Abbreviation completed := (downloadCompleted writeFileError).
Local Abbreviation descriptors := (descriptorsOf writeFileError).
Local Abbreviation built := (builtFor writeFileError).

Lemma quiet_writeFile f data : quiet (writeFile writeFileError f data).
Proof.
  split; [intros st; reflexivity|].
  constructor; [exact I|constructor].
Qed.

Lemma quiet_beforeDownload f N d : quiet (beforeDownload f N d).
Proof. apply quiet_append. Qed.

Lemma quiet_downloadCompleted f err df : quiet (completed f err df).
Proof.
  unfold downloadCompleted. apply quiet_try_catch.
  - destruct err as [e|]; [apply quiet_throw|].
    apply quiet_bind; [|intros _; apply (quiet_appendLine "OK]")].
    destruct df as [d|]; [|apply quiet_ret].
    apply quiet_bind.
    + split; [|constructor]. intros st. unfold outcomeOf, eventsOf. cbn.
      now rewrite app_nil_r.
    + intros data. apply quiet_writeFile.
  - intros e. apply (quiet_appendLine ("ERROR: " ^^ e ^^ "]")).
Qed.

(** The completion callback resolves, whatever it is called with. *)
Lemma downloadCompleted_resolves f err df :
  outcomeOf (completed f err df) = Resolved tt.
Proof.
  unfold outcomeOf, downloadCompleted, try_catch, bind, throw, ret,
    appendLine, emit, writeFile.
  destruct err as [e|]; [reflexivity|].
  destruct df as [d|]; [|reflexivity].
  destruct (read d) as [data|e]; [|reflexivity].
  destruct (writeFileError f data); reflexivity.
Qed.

Lemma descriptors_built ME N files :
  Forall (built N) (descriptors ME N files).
Proof.
  unfold descriptorsOf. induction files as [|f files IH]; cbn.
  - constructor.
  - destruct (toNameAndPath ME f); cbn; [|exact IH].
    constructor; [split; reflexivity|exact IH].
Qed.

(** The files of the descriptors are the files with path information, in
    the order of the batch. *)
Lemma descriptors_files ME N files :
  map file (descriptors ME N files) = filter (isResolvable ME) files.
Proof.
  unfold descriptorsOf, isResolvable.
  induction files as [|f files IH]; [reflexivity|]. cbn.
  destruct (toNameAndPath ME f); cbn; now rewrite IH.
Qed.

Lemma mapAsync_cons {A B} (f : A -> Async Trace B) a r st b st1 bs st2 :
  f a st = (Resolved b, st1) ->
  mapAsync f r st1 = (Resolved bs, st2) ->
  mapAsync f (a :: r) st = (Resolved (b :: bs), st2).
Proof.
  intros H1 H2. cbn [mapAsync]. unfold bind. rewrite H1, H2. reflexivity.
Qed.

(** [files.map(...)] resolves every file or logs it, and goes over the
    whole batch. *)
Lemma mapAsync_toFileToDownload ME N files :
  forall st,
  exists mapped,
    mapAsync (toFileToDownload writeFileError ME N) files st
    = (Resolved mapped, st ++ unresolvedLog ME files)
    /\ nonNull mapped = descriptors ME N files.
Proof.
  induction files as [|f files IH]; intros st.
  - exists []. cbn. now rewrite app_nil_r.
  - destruct (toNameAndPath ME f) as [np|] eqn:Hnp.
    + destruct (IH st) as [mapped [Hrun Hnn]].
      eexists. split.
      * eapply mapAsync_cons.
        -- unfold toFileToDownload. rewrite Hnp. reflexivity.
        -- unfold unresolvedLog, isResolvable. cbn [filter].
           rewrite Hnp. exact Hrun.
      * unfold descriptorsOf. cbn [nonNull flat_map]. rewrite Hnp.
        fold (nonNull mapped). rewrite Hnn. reflexivity.
    + destruct (IH (st ++ [Append ("Cannot detect path information for file '"
                                      ^^ f ^^ "'!")]))
        as [mapped [Hrun Hnn]].
      eexists. split.
      * eapply mapAsync_cons.
        -- unfold toFileToDownload. rewrite Hnp. reflexivity.
        -- unfold unresolvedLog, isResolvable. cbn [filter].
           rewrite Hnp. cbn [negb map]. rewrite Hrun.
           rewrite <- app_assoc. reflexivity.
      * unfold descriptorsOf. cbn [nonNull flat_map]. rewrite Hnp.
        fold (nonNull mapped). rewrite Hnn. reflexivity.
Qed.

Lemma quiet_performCall N CTX c :
  Forall (built N) (files CTX) -> quiet (performCall CTX c).
Proof.
  intros HF. rewrite Forall_forall in HF.
  destruct c as [i d|i err df]; cbn [performCall];
    destruct (nth_error (files CTX) i) as [SF|] eqn:Hi;
    try apply quiet_throw;
    destruct (HF SF (nth_error_In _ _ Hi)) as [Hb Hc].
  - rewrite Hb. apply quiet_beforeDownload.
  - rewrite Hc. apply quiet_downloadCompleted.
Qed.

Lemma quiet_performCalls N CTX cs :
  Forall (built N) (files CTX) -> quiet (performCalls CTX cs).
Proof.
  intros HF. induction cs as [|c cs IH]; cbn [performCalls].
  - apply quiet_ret.
  - apply quiet_bind; [now apply (quiet_performCall N)|intros _; exact IH].
Qed.

(** A plugin's call adds one turn and, besides, only what the callbacks
    log and write. *)
Lemma callDownloadFiles_turn N PI CTX :
  Forall (built N) (files CTX) ->
  appending (callDownloadFiles PI CTX)
  /\ dispatchesOf (eventsOf (callDownloadFiles PI CTX))
     = [(__index PI,
         if hasDownloadFiles PI then Some (map file (files CTX)) else None)].
Proof.
  intros HF. unfold callDownloadFiles, hasDownloadFiles.
  destruct (downloadFiles PI) as [run|].
  - assert (Hq : quiet
                   (performCalls CTX (calls (run CTX)) ;;;
                    match failure (run CTX) with
                    | Some e => throw e
                    | None => ret tt
                    end)).
    { apply quiet_bind; [now apply (quiet_performCalls N)|].
      intros _. destruct (failure (run CTX));
        [apply quiet_throw|apply quiet_ret]. }
    split.
    + apply appending_bind; [apply appending_emit|intros _; apply Hq].
    + rewrite eventsOf_bind;
        [|apply appending_emit|intros _; apply Hq].
      rewrite dispatchesOf_app. cbn [outcomeOf eventsOf emit fst snd app].
      rewrite (callback_events_no_dispatch _ (proj2 Hq)). reflexivity.
  - split.
    + apply appending_bind; [apply appending_emit|].
      intros _. apply appending_throw.
    + reflexivity.
Qed.

(** One plugin's turn resolves, and its calls are those of [turnEvents]. *)
Lemma pullWith_run ME files target N PI st :
  pullWith writeFileError ME files target N PI st
  = (Resolved tt, st ++ turnEvents writeFileError ME files target N PI).
Proof.
  unfold pullWith, try_catch, turnEvents.
  set (CTX := {| files := descriptors ME N files; target := target |}).
  destruct (callDownloadFiles_turn N PI CTX (descriptors_built ME N files))
    as [Happ _].
  rewrite (bind_resolved _ _ st tt (st ++ [AppendLine EmptyString]))
    by reflexivity.
  set (banner := if 1 <? length files
                 then [AppendLine ("Start pulling files from '" ^^ N ^^ "'...")]
                 else []).
  rewrite (bind_resolved _ _ _ tt ((st ++ [AppendLine EmptyString]) ++ banner))
    by (subst banner; destruct (1 <? length files);
        [reflexivity|cbn; now rewrite app_nil_r]).
  destruct (mapAsync_toFileToDownload ME N files
              ((st ++ [AppendLine EmptyString]) ++ banner))
    as [mapped [Hrun Hnn]].
  rewrite (bind_resolved _ _ _ _ _ Hrun). cbv zeta. rewrite Hnn. fold CTX.
  unfold bind. rewrite Happ.
  destruct (outcomeOf (callDownloadFiles PI CTX)) as [[]|e].
  - destruct (1 <? length files); unfold appendLine, emit, ret;
      rewrite <- ?app_assoc; cbn [app]; rewrite ?app_nil_r; reflexivity.
  - unfold appendLine, emit. rewrite <- ?app_assoc. reflexivity.
Qed.

Lemma dispatchesOf_unresolvedLog ME files :
  dispatchesOf (unresolvedLog ME files) = [].
Proof.
  unfold unresolvedLog.
  induction (filter _ files) as [|f l IH]; [reflexivity|exact IH].
Qed.

(** A turn is one plugin's: a call of [downloadFiles] with the files that
    have path information, or the failed attempt at one. *)
Lemma dispatchesOf_turnEvents ME files target N PI :
  dispatchesOf (turnEvents writeFileError ME files target N PI)
  = [(__index PI,
      if hasDownloadFiles PI then Some (filter (isResolvable ME) files)
      else None)].
Proof.
  unfold turnEvents.
  set (CTX := {| files := descriptors ME N files; target := target |}).
  destruct (callDownloadFiles_turn N PI CTX (descriptors_built ME N files))
    as [_ Hd].
  rewrite !dispatchesOf_app, Hd, dispatchesOf_unresolvedLog.
  subst CTX. cbn [Pull.files]. rewrite descriptors_files.
  destruct (1 <? length files);
    destruct (outcomeOf _); cbn; reflexivity.
Qed.

(** The loop gives every plugin of its list a turn, first to last, and
    resolves. *)
Lemma pullLoop_run ME files target N PLUGINS :
  forall st,
    pullLoop writeFileError ME files target N PLUGINS st
    = (Resolved tt,
       st ++ flat_map (turnEvents writeFileError ME files target N) PLUGINS).
Proof.
  induction PLUGINS as [|PI rest IH]; intros st; cbn [pullLoop flat_map].
  - cbn. now rewrite app_nil_r.
  - rewrite (bind_resolved _ _ _ _ _ (pullWith_run ME files target N PI st)).
    rewrite IH. now rewrite app_assoc.
Qed.

Lemma dispatchesOf_turns ME files target N PLUGINS :
  dispatchesOf (flat_map (turnEvents writeFileError ME files target N) PLUGINS)
  = map (fun PI =>
           (__index PI,
            if hasDownloadFiles PI then Some (filter (isResolvable ME) files)
            else None))
        PLUGINS.
Proof.
  induction PLUGINS as [|PI rest IH]; [reflexivity|].
  cbn [flat_map map].
  now rewrite dispatchesOf_app, dispatchesOf_turnEvents, IH.
Qed.

(** [pullFilesFrom] on files and a target that are there. *)
Lemma pullFilesFrom_run ME files target targetNr st :
  files <> [] ->
  pullFilesFrom writeFileError ME files (Some target) targetNr st
  = (Resolved tt,
     st ++ match matchingPlugins ME target with
           | [] => [ShowWarningMessage "No matching PLUGINS found!"]
           | PLUGINS =>
               flat_map (turnEvents writeFileError ME files target
                                    (targetNameOf target))
                        PLUGINS
           end).
Proof.
  intros Hfiles. unfold pullFilesFrom.
  destruct files as [|f files]; [now elim Hfiles|].
  cbn [length Nat.ltb Nat.leb]. cbv zeta.
  fold (targetNameOf target). fold (matchingPlugins ME target).
  destruct (matchingPlugins ME target) as [|PI rest].
  - reflexivity.
  - cbn [length Nat.ltb Nat.leb]. apply pullLoop_run.
Qed.

Lemma downloadsOf_turns ME files target N PLUGINS :
  downloadsOf (flat_map (turnEvents writeFileError ME files target N) PLUGINS)
  = map (fun PI => (__index PI, filter (isResolvable ME) files))
        (filter hasDownloadFiles PLUGINS).
Proof.
  unfold downloadsOf. rewrite dispatchesOf_turns.
  induction PLUGINS as [|PI rest IH]; [reflexivity|].
  cbn [map flat_map filter fst snd].
  destruct (hasDownloadFiles PI); cbn; now rewrite IH.
Qed.

Lemma turnEvents_in_turns ME files target N PLUGINS PI e :
  In PI PLUGINS ->
  In e (turnEvents writeFileError ME files target N PI) ->
  In e (flat_map (turnEvents writeFileError ME files target N) PLUGINS).
Proof. intros HPI He. apply in_flat_map. now exists PI. Qed.

Lemma isMatching_worded T pi :
  isMatching T pi = true <-> Readings.matchesAsWorded T pi.
Proof.
  unfold isMatching, Readings.matchesAsWorded.
  rewrite orb_true_iff, !andb_true_iff, !String.eqb_eq.
  split.
  - intros [H|[[H1 H2] H3]]; [left; now symmetry|right].
    repeat split; [now symmetry|exact H2|].
    destruct (downloadFiles pi); [discriminate|discriminate].
  - intros [H|[H1 [H2 H3]]]; [left; now symmetry|right].
    repeat split; [now symmetry|exact H2|].
    destruct (downloadFiles pi); [reflexivity|now elim H3].
Qed.

(** C1.  For a batch that is not empty, [pullFilesFrom] resolves, whatever
    the plugins do; every matching plugin gets one turn, in the order of the
    registry, and the calls of [downloadFiles] that were entered are one for
    each matching plugin that has the method, in the same order; and an
    error a matching plugin's call failed with is logged in the line of the
    loop's [catch]. *)
Theorem every_matching_plugin_is_invoked_once
        ME files target targetNr st :
  files <> [] ->
  exists evs,
    pullFilesFrom writeFileError ME files (Some target) targetNr st
    = (Resolved tt, st ++ evs)
    /\ map fst (dispatchesOf evs) = map __index (matchingPlugins ME target)
    /\ map fst (downloadsOf evs)
       = map __index (filter hasDownloadFiles (matchingPlugins ME target))
    /\ forall PI e,
         In PI (matchingPlugins ME target) ->
         outcomeOf
           (callDownloadFiles PI
              {| Pull.files :=
                  descriptorsOf writeFileError ME (targetNameOf target)
                                files;
                 Pull.target := target |})
         = Rejected e ->
         In (AppendLine ("[ERROR] Pulling from '" ^^ targetNameOf target
                           ^^ "' failed: " ^^ e))
            evs.
Proof.
  intros Hfiles. eexists. split; [now apply pullFilesFrom_run|].
  destruct (matchingPlugins ME target) as [|PI0 rest] eqn:HP.
  - split; [reflexivity|]. split; [reflexivity|]. intros PI e [].
  - rewrite <- HP. split; [|split].
    + rewrite dispatchesOf_turns, map_map. reflexivity.
    + rewrite downloadsOf_turns, map_map. reflexivity.
    + intros PI e HPI Hrej.
      apply (turnEvents_in_turns _ _ _ _ _ PI); [exact HPI|].
      unfold turnEvents. rewrite Hrej.
      rewrite !in_app_iff. do 4 right. now left.
Qed.

(** C5.  The plugins that get a turn are the plugins of the registry that
    pass the filter, in the order of the registry; a plugin passes when its
    type is the empty string, or when its type is the normalized type of
    the target and it can download and has the method; and when none
    passes, the call shows the warning, makes no other call and resolves. *)
Theorem turns_go_to_matching_plugins ME files target targetNr st :
  files <> [] ->
  let TARGET_TYPE := normalizeString (Targets.type target) in
  (forall pi,
      isMatching TARGET_TYPE pi = true
      <-> Readings.matchesAsWorded TARGET_TYPE pi)
  /\ exists evs,
       pullFilesFrom writeFileError ME files (Some target) targetNr st
       = (Resolved tt, st ++ evs)
       /\ map fst (dispatchesOf evs)
          = map __index (filter (isMatching TARGET_TYPE) (plugins ME))
       /\ (filter (isMatching TARGET_TYPE) (plugins ME) = [] ->
           evs = [ShowWarningMessage "No matching PLUGINS found!"]).
Proof.
  intros Hfiles TARGET_TYPE. split; [intros pi; apply isMatching_worded|].
  eexists. split; [now apply pullFilesFrom_run|].
  change (filter (isMatching TARGET_TYPE) (plugins ME))
    with (matchingPlugins ME target).
  destruct (matchingPlugins ME target) as [|PI0 rest] eqn:HP.
  - split; [reflexivity|reflexivity].
  - rewrite <- HP. split.
    + rewrite dispatchesOf_turns, map_map. reflexivity.
    + rewrite HP. discriminate.
Qed.

(** C7.  Every call of [downloadFiles] gets the files of the batch that
    have path information, all of them and in their order, and each file
    without path information is logged, as soon as a plugin has a turn. *)
Theorem unresolvable_files_are_dropped_and_logged
        ME files target targetNr st :
  files <> [] ->
  exists evs,
    pullFilesFrom writeFileError ME files (Some target) targetNr st
    = (Resolved tt, st ++ evs)
    /\ downloadsOf evs
       = map (fun PI => (__index PI, filter (isResolvable ME) files))
             (filter hasDownloadFiles (matchingPlugins ME target))
    /\ forall f,
         In f files ->
         toNameAndPath ME f = None ->
         matchingPlugins ME target <> [] ->
         In (Append ("Cannot detect path information for file '" ^^ f
                       ^^ "'!"))
            evs.
Proof.
  intros Hfiles. eexists. split; [now apply pullFilesFrom_run|].
  destruct (matchingPlugins ME target) as [|PI0 rest] eqn:HP.
  - split; [reflexivity|]. intros f _ _ Hne. now elim Hne.
  - rewrite <- HP. split; [apply downloadsOf_turns|].
    intros f Hf Hnp _.
    apply (turnEvents_in_turns _ _ _ _ _ PI0); [rewrite HP; now left|].
    unfold turnEvents. rewrite !in_app_iff. right. right. left.
    unfold unresolvedLog. apply in_map_iff. exists f. split; [reflexivity|].
    apply filter_In. split; [exact Hf|].
    unfold isResolvable. now rewrite Hnp.
Qed.

(** What a plugin's call adds: its turn first, and then only what the
    callbacks log and write. *)
Lemma callDownloadFiles_events N PI CTX :
  Forall (built N) (Pull.files CTX) ->
  exists d cb,
    eventsOf (callDownloadFiles PI CTX) = d :: cb
    /\ ~ isCallbackEvent d
    /\ (forall s, d <> AppendLine s)
    /\ Forall isCallbackEvent cb.
Proof.
  intros HF. unfold callDownloadFiles.
  destruct (downloadFiles PI) as [run|].
  - assert (Hq : quiet
                   (performCalls CTX (calls (run CTX)) ;;;
                    match failure (run CTX) with
                    | Some e => throw e
                    | None => ret tt
                    end)).
    { apply quiet_bind; [now apply (quiet_performCalls N)|].
      intros _. destruct (failure (run CTX));
        [apply quiet_throw|apply quiet_ret]. }
    eexists. eexists. split.
    + rewrite eventsOf_bind; [|apply appending_emit|intros _; apply Hq].
      reflexivity.
    + split; [intros []|]. split; [discriminate|]. apply Hq.
  - exists (NotAFunction (__index PI)), []. split; [reflexivity|].
    split; [intros []|]. split; [discriminate|constructor].
Qed.

(** The calls of one plugin's turn, seen from the function itself. *)
Lemma eventsOf_pullWith ME files target N PI :
  eventsOf (pullWith writeFileError ME files target N PI)
  = turnEvents writeFileError ME files target N PI.
Proof. unfold eventsOf. now rewrite pullWith_run. Qed.

(** C6, as amended.  The "before" callback of a descriptor logs the start
    message of its file whenever it is called, for a batch of any size;
    the line that a plugin's turn logs only for a batch of more than one
    file is the start banner of the batch. *)
Theorem before_callback_logs_for_any_batch_size ME N files :
  (forall SF destination st,
      In SF (descriptorsOf writeFileError ME N files) ->
      onBeforeDownload SF destination st
      = (Resolved tt,
         st ++ [Append ("Pulling file '" ^^ file SF ^^ "' from '" ^^ N
                          ^^ "'... ")]))
  /\ (forall target PI,
        In (AppendLine ("Start pulling files from '" ^^ N ^^ "'..."))
           (eventsOf (pullWith writeFileError ME files target N PI))
        <-> 1 < length files).
Proof.
  split.
  - intros SF destination st HSF.
    pose proof (descriptors_built ME N files) as HF.
    rewrite Forall_forall in HF. destruct (HF SF HSF) as [Hb _].
    rewrite Hb. reflexivity.
  - intros target PI. rewrite eventsOf_pullWith. unfold turnEvents.
    set (CTX := {| Pull.files := descriptors ME N files;
                   Pull.target := target |}).
    destruct (callDownloadFiles_events N PI CTX (descriptors_built ME N files))
      as [d [cb [Hev [_ [Hd Hcb]]]]].
    rewrite Hev. rewrite !in_app_iff. split.
    + intros [H|[H|[H|[H|H]]]].
      * destruct H as [H|[]]. cbn in H. discriminate H.
      * destruct (1 <? length files) eqn:Hlen; [|destruct H].
        now apply Nat.ltb_lt.
      * unfold unresolvedLog in H. apply in_map_iff in H.
        destruct H as [f [H _]]. discriminate H.
      * destruct H as [H|H]; [now elim (Hd _ H)|].
        rewrite Forall_forall in Hcb. destruct (Hcb _ H) as [r Hr].
        cbn in Hr. discriminate Hr.
      * destruct (outcomeOf (callDownloadFiles PI CTX)) as [[]|e].
        -- destruct (1 <? length files) eqn:Hlen; [|destruct H].
           now apply Nat.ltb_lt.
        -- destruct H as [H|[]]. cbn in H. discriminate H.
    + intros Hlen. apply Nat.ltb_lt in Hlen. rewrite Hlen.
      right. left. now left.
Qed.

(** C8.  The completion callback resolves whatever it is called with.
    With an error it logs the error line.  Without one and with a result
    that can be read it writes the content to the file of the descriptor
    and then logs [[OK]]; when reading or writing fails it logs the error
    line for this file instead.  A completion that runs after it resolves
    too, and logs what it logs on its own. *)
Theorem completion_callback_never_rejects f err downloadedFile st :
  let after := snd (downloadCompleted writeFileError f err downloadedFile st) in
  fst (downloadCompleted writeFileError f err downloadedFile st) = Resolved tt
  /\ (forall e,
        err = Some e ->
        after = st ++ [AppendLine ("[ERROR: " ^^ e ^^ "]")])
  /\ (forall d data,
        err = None -> downloadedFile = Some d ->
        read d = Resolved data -> writeFileError f data = None ->
        after = st ++ [WriteFile f data; AppendLine "[OK]"])
  /\ (forall d data e,
        err = None -> downloadedFile = Some d ->
        read d = Resolved data -> writeFileError f data = Some e ->
        after = st ++ [WriteFile f data;
                       AppendLine ("[ERROR: " ^^ e ^^ "]")])
  /\ (forall d e,
        err = None -> downloadedFile = Some d ->
        read d = Rejected e ->
        after = st ++ [AppendLine ("[ERROR: " ^^ e ^^ "]")])
  /\ (forall f' err' downloadedFile',
        downloadCompleted writeFileError f' err' downloadedFile' after
        = (Resolved tt,
           after
         ++ eventsOf (downloadCompleted writeFileError f' err'
                                        downloadedFile'))).
Proof.
  intros after.
  destruct (quiet_downloadCompleted f err downloadedFile) as [Happ _].
  split; [rewrite Happ; apply downloadCompleted_resolves|].
  split; [|split; [|split; [|split]]].
  - intros e ->. reflexivity.
  - intros d data -> -> Hread Hwrite. subst after.
    unfold downloadCompleted, try_catch, bind, writeFile, appendLine, emit.
    rewrite Hread, Hwrite. cbn. now rewrite <- app_assoc.
  - intros d data e -> -> Hread Hwrite. subst after.
    unfold downloadCompleted, try_catch, bind, writeFile, appendLine, emit.
    rewrite Hread, Hwrite. cbn [snd]. now rewrite <- app_assoc.
  - intros d e -> -> Hread. subst after.
    unfold downloadCompleted, try_catch, bind, writeFile, appendLine, emit.
    rewrite Hread. reflexivity.
  - intros f' err' df'.
    destruct (quiet_downloadCompleted f' err' df') as [Happ' _].
    rewrite Happ'. now rewrite downloadCompleted_resolves.
Qed.

End PullFacts.

Lemma every_matching_plugin_is_invoked_once_witness :
  exists evs,
    Pull.pullFilesFrom Samples.lockedFile (Samples.site [])
      ["ghost.txt"; "locked.txt"; "style.css"]
      (Some Samples.chainTarget) None []
    = (Resolved tt, evs)
    /\ map fst (Observations.downloadsOf evs) = [0; 3]
    /\ In (Vscode.AppendLine
             "[ERROR] Pulling from 'srv' failed: connection lost")
          evs.
Proof.
  destruct (every_matching_plugin_is_invoked_once
              Samples.lockedFile (Samples.site [])
              ["ghost.txt"; "locked.txt"; "style.css"]
              Samples.chainTarget None [])
    as [evs [Hrun [_ [Hinv Hlog]]]]; [discriminate|].
  exists evs. split; [exact Hrun|]. split; [exact Hinv|].
  apply (Hlog Samples.sftp "connection lost"); [now left|reflexivity].
Defined.

Lemma turns_go_to_matching_plugins_witness :
  exists evs,
    Pull.pullFilesFrom Samples.lockedFile (Samples.site [])
      ["index.html"] (Some Samples.chainTarget) None []
    = (Resolved tt, evs)
    /\ map fst (Observations.dispatchesOf evs) = [0; 2; 3].
Proof.
  destruct (turns_go_to_matching_plugins
              Samples.lockedFile (Samples.site [])
              ["index.html"] Samples.chainTarget None [])
    as [_ [evs [Hrun [Hturns _]]]]; [discriminate|].
  exists evs. split; [exact Hrun|exact Hturns].
Defined.

Lemma unresolvable_files_are_dropped_and_logged_witness :
  exists evs,
    Pull.pullFilesFrom Samples.lockedFile (Samples.site [])
      ["ghost.txt"; "locked.txt"; "style.css"]
      (Some Samples.chainTarget) None []
    = (Resolved tt, evs)
    /\ Observations.downloadsOf evs
       = [(0, ["locked.txt"; "style.css"]); (3, ["locked.txt"; "style.css"])]
    /\ In (Vscode.Append
             "Cannot detect path information for file 'ghost.txt'!")
          evs.
Proof.
  destruct (unresolvable_files_are_dropped_and_logged
              Samples.lockedFile (Samples.site [])
              ["ghost.txt"; "locked.txt"; "style.css"]
              Samples.chainTarget None [])
    as [evs [Hrun [Hfiles Hlog]]]; [discriminate|].
  exists evs. split; [exact Hrun|]. split; [exact Hfiles|].
  apply (Hlog "ghost.txt"); [now left|reflexivity|discriminate].
Defined.

(** C6, as the specification words it, fails: a plugin that calls the
    "before" callback of the only file of a batch gets the start message of
    that file logged. *)
Lemma no_start_message_for_single_file_fails :
  ~ Readings.no_start_message_for_single_file.
Proof.
  intros H.
  apply (H Samples.lockedFile (Samples.site []) "index.html"
           Samples.chainTarget None).
  vm_compute. right. right. left. reflexivity.
Qed.

Lemma before_callback_logs_for_any_batch_size_witness :
  Pull.onBeforeDownload
    {| Pull.file := "index.html";
       Pull.nameAndPath := {| Pull.np_name := "index.html";
                              Pull.np_path := "/" |};
       Pull.onBeforeDownload := Pull.beforeDownload "index.html" "srv";
       Pull.onDownloadCompleted :=
         Pull.downloadCompleted Samples.lockedFile "index.html" |}
    None []
  = (Resolved tt, [Vscode.Append "Pulling file 'index.html' from 'srv'... "]).
Proof.
  apply (proj1 (before_callback_logs_for_any_batch_size
                  Samples.lockedFile (Samples.site []) "srv" ["index.html"])).
  now left.
Defined.

Lemma completion_callback_never_rejects_witness :
  snd (Pull.downloadCompleted Samples.lockedFile "locked.txt" None
         (Some {| Pull.read := Resolved "<html>" |}) [])
  = [Vscode.WriteFile "locked.txt" "<html>";
     Vscode.AppendLine "[ERROR: EACCES: permission denied]"].
Proof.
  destruct (completion_callback_never_rejects
              Samples.lockedFile "locked.txt" None
              (Some {| Pull.read := Resolved "<html>" |}) [])
    as [_ [_ [_ [Hfail _]]]].
  apply (Hfail {| Pull.read := Resolved "<html>" |} "<html>"
               "EACCES: permission denied");
    reflexivity.
Defined.

(** ** Selecting a target *)

Section SelectionFacts.

Import Vscode Observations.

Variable writeFileError : string -> string -> option JsError.
Variable chooseQuickPick : list QuickPickItem -> string -> option nat.

Local Abbreviation pull := (Pull.pullFilesFrom writeFileError).

Lemma targetItems_item ME FILES targets :
  forall i,
    map Contracts.item (Pull.targetItems writeFileError ME FILES i targets)
    = map itemFor targets.
Proof.
  induction targets as [|g r IH]; intros i; [reflexivity|].
  cbn [Pull.targetItems map]. now rewrite IH.
Qed.

Lemma targetItems_length ME FILES targets :
  forall i,
    length (Pull.targetItems writeFileError ME FILES i targets)
    = length targets.
Proof.
  induction targets as [|g r IH]; intros i; [reflexivity|].
  cbn [Pull.targetItems length]. now rewrite IH.
Qed.

(** The action of the item at position [k] pulls from the target at
    position [k], with [k + 1] as its number. *)
Lemma targetItems_action ME FILES targets :
  forall i k,
    option_map Contracts.action
      (nth_error (Pull.targetItems writeFileError ME FILES i targets) k)
    = option_map (fun g => pull ME FILES (Some g) (Some (i + k + 1)))
                 (nth_error targets k).
Proof.
  induction targets as [|g r IH]; intros i k.
  - now destruct k.
  - destruct k as [|k]; cbn [Pull.targetItems nth_error option_map].
    + now rewrite Nat.add_0_r.
    + rewrite IH. now replace (S i + k) with (i + S k) by lia.
Qed.

(** C9.  Both selection flows, [showTargetQuickPick] and the one of
    [pullPackage]: with one target the action runs from the state the flow
    was entered in, no quick pick shown; with two or more the quick pick
    is shown, and then the action of the chosen target runs, or nothing
    when the pick is dismissed, and the flow resolves; with none the
    warning is shown, and that is the only call made. *)
Theorem selection_flow_by_number_of_targets :
  (forall targets placeHolder action st,
      let act := fun g => match action with
                          | Some action => action g
                          | None => ret tt
                          end in
      let shown := map itemFor (Targets.objectsOf targets) in
      let st1 := st ++ [ShowQuickPick shown (toStringSafe placeHolder)] in
      let flow :=
        Targets.showTargetQuickPick chooseQuickPick targets placeHolder
                                    action st in
      (forall g, Targets.objectsOf targets = [g] -> flow = act g st)
      /\ (forall g1 g2 more,
            Targets.objectsOf targets = g1 :: g2 :: more ->
            flow
            = match chooseQuickPick shown (toStringSafe placeHolder) with
              | Some i =>
                  match nth_error (Targets.objectsOf targets) i with
                  | Some g => act g st1
                  | None => (Resolved tt, st1)
                  end
              | None => (Resolved tt, st1)
              end)
      /\ (Targets.objectsOf targets = [] ->
          flow = (Resolved tt, st ++ [ShowWarningMessage "No TARGETS found!"])))
  /\ (forall ME pkg st,
        Pull.canBeHandledByMe_package ME pkg = true ->
        Pull.findFilesByFilter ME pkg <> [] ->
        let FILES := Pull.findFilesByFilter ME pkg in
        let shown := map itemFor (Pull.getTargets ME) in
        let st1 :=
          st ++ [ShowQuickPick shown "Select the TARGET to pull from..."] in
        let flow :=
          Pull.pullPackage writeFileError chooseQuickPick ME (Some pkg) st in
        (forall g,
            Pull.getTargets ME = [g] ->
            flow
          = Pull.pullFilesFrom writeFileError ME FILES (Some g) (Some 1) st)
        /\ (forall g1 g2 more,
              Pull.getTargets ME = g1 :: g2 :: more ->
              flow
              = match chooseQuickPick shown
                        "Select the TARGET to pull from..." with
                | Some i =>
                    match nth_error (Pull.getTargets ME) i with
                    | Some g =>
                      Pull.pullFilesFrom writeFileError ME FILES (Some g)
                                         (Some (i + 1)) st1
                    | None => (Resolved tt, st1)
                    end
                | None => (Resolved tt, st1)
                end)
        /\ (Pull.getTargets ME = [] ->
            flow
            = (Resolved tt, st ++ [ShowWarningMessage "No TARGETS found!"]))).
Proof.
  split.
  - intros targets placeHolder action st act shown st1 flow.
    subst flow. unfold Targets.showTargetQuickPick.
    set (objs := Targets.objectsOf targets) in *.
    set (mk := fun g : Targets.Target =>
                 {| Contracts.item := itemFor g;
                    Contracts.action := act g |}).
    change (map _ objs) with (map mk objs).
    assert (Hshown : map Contracts.item (map mk objs) = shown)
      by (rewrite map_map; reflexivity).
    assert (Hnth : forall i,
               option_map Contracts.action (nth_error (map mk objs) i)
               = option_map act (nth_error objs i)).
    { intros i. rewrite nth_error_map.
      destruct (nth_error objs i); reflexivity. }
    rewrite length_map. repeat split.
    + intros g Hg. rewrite Hg. reflexivity.
    + intros g1 g2 more Hg.
      assert (Hlen : (length objs <? 1) = false
                     /\ (1 =? length objs) = false)
        by (rewrite Hg; split; reflexivity).
      destruct Hlen as [-> ->].
      unfold bind, Targets.showQuickPick. rewrite Hshown. fold st1.
      destruct (chooseQuickPick _ _) as [i|]; [|reflexivity].
      specialize (Hnth i).
      destruct (nth_error (map mk objs) i) as [it|];
        destruct (nth_error objs i) as [g|];
        cbn in Hnth; try discriminate; [|reflexivity].
      inversion Hnth as [Hact]. now rewrite Hact.
    + intros Hg. rewrite Hg. reflexivity.
  - intros ME pkg st Hcan Hfiles FILES shown st1 flow.
    subst flow. unfold Pull.pullPackage. rewrite Hcan. cbn [negb].
    fold FILES.
    assert (HF : (length FILES <? 1) = false).
    { destruct FILES as [|f0 fs] eqn:HF; [now elim Hfiles|reflexivity]. }
    rewrite HF. rewrite targetItems_length.
    pose proof (targetItems_item ME FILES (Pull.getTargets ME) 0) as Hshown.
    fold shown in Hshown.
    pose proof (targetItems_action ME FILES (Pull.getTargets ME) 0) as Hnth.
    repeat split.
    + intros g Hg. rewrite Hg. reflexivity.
    + intros g1 g2 more Hg.
      assert (Hlen : (length (Pull.getTargets ME) <? 1) = false
                     /\ (1 =? length (Pull.getTargets ME)) = false)
        by (rewrite Hg; split; reflexivity).
      destruct Hlen as [-> ->].
      unfold bind, Targets.showQuickPick. rewrite Hshown. fold st1.
      destruct (chooseQuickPick _ _) as [i|]; [|reflexivity].
      specialize (Hnth i).
      destruct (nth_error (Pull.targetItems _ _ _ _ _) i) as [it|];
        destruct (nth_error (Pull.getTargets ME) i) as [g|];
        cbn in Hnth; try discriminate; [|reflexivity].
      inversion Hnth as [Hact]. now rewrite Hact.
    + intros Hg. rewrite Hg. reflexivity.
Qed.

End SelectionFacts.

Lemma selection_flow_by_number_of_targets_witness :
  Targets.showTargetQuickPick Samples.pickSecond
    (Helpers.One (Some Samples.chainTarget)) None
    (Some (fun _ => Vscode.appendLine "[picked]")) []
  = (Resolved tt, [Vscode.AppendLine "[picked]"])
  /\ Pull.pullPackage Samples.lockedFile Samples.dismiss
       (Samples.site [Samples.chainTarget; Samples.backupTarget])
       (Some Samples.release) []
     = (Resolved tt,
        [Vscode.ShowQuickPick
           [Observations.itemFor Samples.chainTarget;
            Observations.itemFor Samples.backupTarget]
           "Select the TARGET to pull from..."]).
Proof.
  split.
  - destruct (selection_flow_by_number_of_targets
                Samples.lockedFile Samples.pickSecond) as [Hshow _].
    destruct (Hshow (Helpers.One (Some Samples.chainTarget)) None
                    (Some (fun _ => Vscode.appendLine "[picked]")) [])
      as [Hone _].
    apply (Hone Samples.chainTarget). reflexivity.
  - destruct (selection_flow_by_number_of_targets
                Samples.lockedFile Samples.dismiss) as [_ Hpkg].
    destruct (Hpkg (Samples.site [Samples.chainTarget; Samples.backupTarget])
                   Samples.release [])
      as [_ [Hmany _]]; [reflexivity|discriminate|].
    apply (Hmany Samples.chainTarget Samples.backupTarget []). reflexivity.
Defined.

(** ** More on the operation chain *)

Section ChainExtras.

Import Targets Histories.

Variable executors :
  TargetOperationExecutor -> TargetOperationExecutionContext -> ExecutorRun.
Variable evalCondition : string -> bool.

Lemma dispatchOf_executor v o e :
  dispatchOf evalCondition v = Some (o, e) ->
  executorOf (normalizeString (op_type o)) = Some e.
Proof.
  unfold dispatchOf. destruct (firstOrDefault _) as [o'|]; [|discriminate].
  destruct (executorOf _) as [e'|] eqn:He; [|discriminate].
  intros H. inversion H; subst. exact He.
Qed.

Lemma isPassedOver_dispatchOf v :
  isPassedOver evalCondition v -> dispatchOf evalCondition v = None.
Proof.
  unfold dispatchOf, operationOf, toStringSafe.
  destruct v as [o|s]; cbn [isPassedOver].
  - intros [[c [Hc Hev]]|Hx]; cbn.
    + now rewrite Hc, Hev.
    + destruct (op_if o) as [c|]; [destruct (evalCondition c)|]; cbn;
        now rewrite ?Hx.
  - intros Hs. rewrite Hs. reflexivity.
Qed.

Lemma executeLoop_passed_over target ev ops :
  forall prev st,
    isInFinalizeState st = false ->
    Forall (isPassedOver evalCondition) ops ->
    executeLoop executors evalCondition target ev prev ops st
    = (Resolved (Some true), st).
Proof.
  induction ops as [|v ops IH]; intros prev st Hf Hall; [reflexivity|].
  inversion Hall as [|? ? Hv Hrest]; subst.
  rewrite executeLoop_skip; [now apply IH|exact Hf|].
  now apply isPassedOver_dispatchOf.
Qed.

(** A chain that holds nothing to execute (it is missing or empty, or all
    its entries are empty strings, operations whose condition does not hold
    or operations of a type without an executor) returns [true] on a
    workspace that is not finalizing, and no executor is called. *)
Theorem chain_without_executable_entry_returns_true target ev st :
  isInFinalizeState st = false ->
  Forall (isPassedOver evalCondition)
         (asArray match ev with
                  | AfterDeployed => deployed target
                  | BeforeDeploy => beforeDeploy target
                  end) ->
  executeTargetOperations executors evalCondition (Some target) ev st
  = (Resolved (Some true), st).
Proof.
  intros Hf Hall. unfold executeTargetOperations.
  now apply executeLoop_passed_over.
Qed.


Lemma executeLoop_history target ev ops :
  forall prev st,
  exists new,
    invocations
      (snd (executeLoop executors evalCondition target ev prev ops st))
    = invocations st ++ new
    /\ linked target ev prev new
    /\ length new <= length ops.
Proof.
  induction ops as [|v ops IH]; intros prev st.
  - exists []. cbn. rewrite app_nil_r.
    split; [reflexivity|split; [exact I|lia]].
  - destruct (isInFinalizeState st) eqn:Hf.
    + exists []. rewrite executeLoop_finalizing by exact Hf. cbn.
      rewrite app_nil_r. split; [reflexivity|split; [exact I|lia]].
    + destruct (dispatchOf evalCondition v) as [[o e]|] eqn:Hd.
      * rewrite (executeLoop_invoke _ _ _ _ _ _ _ _ _ _ Hf Hd). cbv zeta.
        set (CTX := Context [] ev o prev target (normalizeString (op_type o))).
        assert (Hlink : forall r, linked target ev (Some CTX) r ->
                                  linked target ev prev ((e, CTX) :: r)).
        { intros r Hr. cbn [linked].
          repeat (split; [reflexivity|]).
          split; [now apply (dispatchOf_executor v)|exact Hr]. }
        unfold bind, apply.
        destruct (settled (executors e CTX)) as [r|err].
        -- destruct (negb (toBooleanSafe r true)).
           ++ exists [(e, CTX)].
              split; [reflexivity|split; [now apply Hlink|cbn; lia]].
           ++ match goal with
              | |- context [executeLoop _ _ _ _ _ _ ?s] =>
                  destruct (IH (Some CTX) s) as [new [Hinv [Hl Hlen]]]
              end.
              exists ((e, CTX) :: new). rewrite Hinv. cbn [invocations].
              rewrite <- app_assoc.
              split; [reflexivity|split; [now apply Hlink|cbn; lia]].
        -- exists [(e, CTX)].
           split; [reflexivity|split; [now apply Hlink|cbn; lia]].
      * rewrite (executeLoop_skip _ _ _ _ _ _ _ _ Hf Hd).
        destruct (IH prev st) as [new [Hinv [Hl Hlen]]].
        exists new. split; [exact Hinv|split; [exact Hl|cbn; lia]].
Qed.

(** The executor calls a run adds form a linked history: the first
    context has no previous context, every later one has the context of the
    call before it, all of them carry the event and the target of the run,
    and there are at most as many calls as the chain has entries. *)
Theorem invocations_form_linked_history target ev st :
  exists new,
    invocations
      (snd (executeTargetOperations executors evalCondition (Some target)
                                    ev st))
    = invocations st ++ new
    /\ linked target ev None new
    /\ length new
       <= length (asArray match ev with
                          | AfterDeployed => deployed target
                          | BeforeDeploy => beforeDeploy target
                          end).
Proof. unfold executeTargetOperations. apply executeLoop_history. Qed.

Lemma executeLoop_outcome target ev ops :
  forall prev st,
  exists new,
    invocations
      (snd (executeLoop executors evalCondition target ev prev ops st))
    = invocations st ++ new
    /\ match fst (executeLoop executors evalCondition target ev prev ops st)
       with
       | Resolved (Some true) => Forall (letsContinue executors) new
       | Resolved (Some false) =>
           isInFinalizeState
             (snd (executeLoop executors evalCondition target ev prev ops st))
           = true
           \/ exists pre e c,
               new = pre ++ [(e, c)]
               /\ Forall (letsContinue executors) pre
               /\ settled (executors e c) = Resolved (ResultBoolean false)
       | Resolved None => False
       | Rejected err =>
           exists pre e c,
             new = pre ++ [(e, c)]
             /\ Forall (letsContinue executors) pre
             /\ settled (executors e c) = Rejected err
       end.
Proof.
  induction ops as [|v ops IH]; intros prev st.
  - exists []. cbn. rewrite app_nil_r. split; [reflexivity|constructor].
  - destruct (isInFinalizeState st) eqn:Hf.
    + exists []. rewrite executeLoop_finalizing by exact Hf. cbn.
      rewrite app_nil_r. split; [reflexivity|now left].
    + destruct (dispatchOf evalCondition v) as [[o e]|] eqn:Hd.
      * rewrite (executeLoop_invoke _ _ _ _ _ _ _ _ _ _ Hf Hd). cbv zeta.
        set (CTX := Context [] ev o prev target (normalizeString (op_type o))).
        unfold bind, apply.
        destruct (settled (executors e CTX)) as [r|err] eqn:Hs.
        -- destruct (negb (toBooleanSafe r true)) eqn:Hab.
           ++ exists [(e, CTX)]. split; [reflexivity|].
              right. exists [], e, CTX.
              split; [reflexivity|split; [constructor|]].
              rewrite Hs. destruct r as [| |[|]]; try discriminate Hab.
              reflexivity.
           ++ assert (Hc : letsContinue executors (e, CTX)).
              { exists r. split; [exact Hs|]. intros ->. discriminate Hab. }
              match goal with
              | |- context [executeLoop _ _ _ _ _ _ ?s] =>
                  destruct (IH (Some CTX) s) as [new [Hinv Hout]];
                  destruct (executeLoop executors evalCondition target ev
                                        (Some CTX) ops s) as [out st']
              end.
              exists ((e, CTX) :: new). cbn [fst snd] in *.
              split; [rewrite Hinv; cbn; now rewrite <- app_assoc|].
              destruct out as [[[|]|]|err].
              ** now constructor.
              ** destruct Hout as [H|[pre [e' [c' [Hn [Hp Hs']]]]]];
                   [now left|right].
                 exists ((e, CTX) :: pre), e', c'.
                 split; [now rewrite Hn|split; [now constructor|exact Hs']].
              ** exact Hout.
              ** destruct Hout as [pre [e' [c' [Hn [Hp Hs']]]]].
                 exists ((e, CTX) :: pre), e', c'.
                 split; [now rewrite Hn|split; [now constructor|exact Hs']].
        -- exists [(e, CTX)]. split; [reflexivity|].
           exists [], e, CTX.
           split; [reflexivity|split; [constructor|exact Hs]].
      * rewrite (executeLoop_skip _ _ _ _ _ _ _ _ Hf Hd). apply IH.
Qed.

(** What the result of a run says about the executors: [true] means that
    every executor called resolved to something other than [false]; [false]
    means that the workspace is finalizing or that the last executor called
    resolved to [false]; a rejection is the rejection of the last executor
    called.  In the last two cases the calls before the last one resolved to
    something other than [false]. *)
Theorem chain_result_explained target ev st :
  let result :=
    executeTargetOperations executors evalCondition (Some target) ev st in
  exists new,
    invocations (snd result) = invocations st ++ new
    /\ match fst result with
       | Resolved (Some true) => Forall (letsContinue executors) new
       | Resolved (Some false) =>
           isInFinalizeState (snd result) = true
           \/ exists pre e c,
               new = pre ++ [(e, c)]
               /\ Forall (letsContinue executors) pre
               /\ settled (executors e c) = Resolved (ResultBoolean false)
       | Resolved None => False
       | Rejected err =>
           exists pre e c,
             new = pre ++ [(e, c)]
             /\ Forall (letsContinue executors) pre
             /\ settled (executors e c) = Rejected err
       end.
Proof. unfold executeTargetOperations. apply executeLoop_outcome. Qed.

(** As long as no executor run sets the workspace finalizing, the entries
    the loop passes over do not matter: the loop over a chain and the loop
    over the entries of it that have an executor give the same result and
    the same executor calls. *)
Theorem passed_over_entries_do_not_matter target ev ops :
  (forall e c, finalizing (executors e c) = false) ->
  forall prev st,
    isInFinalizeState st = false ->
    executeLoop executors evalCondition target ev prev ops st
    = executeLoop executors evalCondition target ev prev
                  (filter (hasExecutor evalCondition) ops) st.
Proof.
  intros Hquiet. induction ops as [|v ops IH]; intros prev st Hf;
    [reflexivity|].
  cbn [filter]. unfold hasExecutor at 1.
  destruct (dispatchOf evalCondition v) as [[o e]|] eqn:Hd.
  - rewrite !(executeLoop_invoke _ _ _ _ _ _ _ _ _ _ Hf Hd). cbv zeta.
    unfold bind, apply. rewrite Hquiet, Hf.
    destruct (settled _) as [r|err]; [|reflexivity].
    destruct (negb _); [reflexivity|]. now apply IH.
  - rewrite (executeLoop_skip _ _ _ _ _ _ _ _ Hf Hd). now apply IH.
Qed.

End ChainExtras.

(** ** Names and types of targets *)

Section NameFacts.

Import Targets.


Lemma existsb_eqb_In x seen :
  existsb (String.eqb x) seen = true <-> In x seen.
Proof.
  rewrite existsb_exists. split.
  - intros [y [Hy Hxy]]. apply String.eqb_eq in Hxy. now subst.
  - intros H. exists x. split; [exact H|apply String.eqb_refl].
Qed.

Lemma distinctFrom_In l :
  forall seen x, In x (distinctFrom seen l) <-> In x l /\ ~ In x seen.
Proof.
  induction l as [|y l IH]; intros seen x; cbn [distinctFrom].
  - cbn. tauto.
  - destruct (existsb (String.eqb y) seen) eqn:Hy.
    + apply existsb_eqb_In in Hy. rewrite IH. cbn. split.
      * intros [H1 H2]. tauto.
      * intros [[->|H1] H2]; [contradiction|tauto].
    + assert (Hn : ~ In y seen).
      { intros H. apply existsb_eqb_In in H. congruence. }
      cbn [In]. rewrite IH. cbn [In]. split.
      * intros [->|[H1 H2]]; [tauto|]. split; [tauto|]. intros H. apply H2.
        now right.
      * intros [[->|H1] H2]; [now left|].
        destruct (String.eqb_spec y x) as [->|Hne]; [now left|right].
        split; [exact H1|]. intros [H|H]; [contradiction|contradiction].
Qed.

Lemma distinctFrom_NoDup l : forall seen, NoDup (distinctFrom seen l).
Proof.
  induction l as [|y l IH]; intros seen; cbn [distinctFrom].
  - constructor.
  - destruct (existsb (String.eqb y) seen); [apply IH|].
    constructor; [|apply IH].
    rewrite distinctFrom_In. intros [_ H]. apply H. now left.
Qed.

Lemma distinct_In l x : In x (distinct l) <-> In x l.
Proof. unfold distinct. rewrite distinctFrom_In. cbn. tauto. Qed.

Lemma matchingTargets_In targets tn g :
  In g (matchingTargets targets tn)
  <-> In g targets /\ normalizeString (getTargetName (Some g)) = tn.
Proof.
  unfold matchingTargets. rewrite filter_In. cbv zeta.
  now rewrite String.eqb_eq.
Qed.

Lemma matchingTargets_none targets tn :
  (0 <? length (matchingTargets targets tn)) = false
  <-> forall g, In g targets ->
                normalizeString (getTargetName (Some g)) <> tn.
Proof.
  split.
  - intros H g Hg Hn.
    assert (Hin : In g (matchingTargets targets tn))
      by (apply matchingTargets_In; now split).
    destruct (matchingTargets targets tn); [destruct Hin|discriminate H].
  - intros H. destruct (matchingTargets targets tn) as [|g l] eqn:Hm;
      [reflexivity|].
    assert (Hin : In g (matchingTargets targets tn))
      by (rewrite Hm; now left).
    apply matchingTargets_In in Hin. destruct Hin as [Hg Hn].
    now elim (H g Hg).
Qed.

(** The two arrays the [forEach] fills, in closed form. *)
Lemma forEachTargetName_run targets names :
  forall E N,
    forEachTargetName targets names E N
    = (E ++ flat_map (matchingTargets targets) names,
       N ++ filter (fun tn =>
                      negb (0 <? length (matchingTargets targets tn)))
                   names).
Proof.
  induction names as [|tn names IH]; intros E N;
    cbn [forEachTargetName flat_map filter].
  - now rewrite !app_nil_r.
  - cbv zeta. destruct (0 <? length (matchingTargets targets tn)) eqn:Hm.
    + rewrite IH. cbn [negb]. now rewrite <- app_assoc.
    + rewrite IH. cbn [negb].
      destruct (matchingTargets targets tn); [|discriminate Hm].
      cbn [app]. now rewrite <- app_assoc.
Qed.

Lemma fold_left_warnings (msg : string -> string) l :
  forall st,
    fold_left (fun st tn => snd (Vscode.showWarningMessage (msg tn) st)) l st
    = st ++ map (fun tn => Vscode.ShowWarningMessage (msg tn)) l.
Proof.
  induction l as [|tn l IH]; intros st; cbn [fold_left map].
  - now rewrite app_nil_r.
  - rewrite IH. cbn. now rewrite <- app_assoc.
Qed.

(** [getTargetsByName] in closed form. *)
Lemma getTargetsByName_run names targets st :
  let tns :=
    distinct (map (fun tn => normalizeString (Some tn)) (asArray names)) in
  let missing :=
    filter (fun tn =>
              negb (0 <? length (matchingTargets (asArray targets) tn)))
           tns in
  getTargetsByName names targets st
  = if 0 <? length missing
    then (None,
          st ++ map (fun tn =>
                       Vscode.ShowWarningMessage
                         ("The target '" ^^ tn ^^ "' does NOT EXIST!"))
                    missing)
    else (Some (flat_map (matchingTargets (asArray targets)) tns), st).
Proof.
  intros tns missing. unfold getTargetsByName. fold tns.
  rewrite forEachTargetName_run. cbn [app]. fold missing.
  destruct (0 <? length missing); [|reflexivity].
  now rewrite (fold_left_warnings
                 (fun tn => "The target '" ^^ tn ^^ "' does NOT EXIST!")).
Qed.

Lemma filter_nil_all {A} (f : A -> bool) l :
  filter f l = [] -> forall x, In x l -> f x = false.
Proof.
  intros H x Hx. destruct (f x) eqn:Hf; [|reflexivity].
  assert (Hin : In x (filter f l)) by (apply filter_In; now split).
  rewrite H in Hin. destruct Hin.
Qed.

Lemma NoDup_flat_map_disjoint {A B} (f : A -> list B) l :
  NoDup l ->
  (forall x, NoDup (f x)) ->
  (forall x y b, x <> y -> In b (f x) -> In b (f y) -> False) ->
  NoDup (flat_map f l).
Proof.
  intros Hl Hf Hdis. induction Hl as [|x l Hx Hl IH]; cbn [flat_map].
  - constructor.
  - apply NoDup_app; [apply Hf|exact IH|].
    intros b Hb Hin. apply in_flat_map in Hin. destruct Hin as [y [Hy Hby]].
    apply (Hdis x y b); [|exact Hb|exact Hby].
    intros ->. contradiction.
Qed.

(** When [getTargetsByName] gives a list it has shown no warning, and the
    list holds exactly the targets whose normalized name is the normalized
    form of a requested name; every requested name has at least one target
    in the list. *)
Theorem getTargetsByName_found names targets st found st' :
  getTargetsByName names targets st = (Some found, st') ->
  st' = st
  /\ (forall g,
        In g found
        <-> In g (asArray targets)
            /\ exists tn,
                In tn (asArray names)
                /\ normalizeString (getTargetName (Some g))
                   = normalizeString (Some tn))
  /\ (forall tn,
        In tn (asArray names) ->
        exists g,
          In g found
          /\ normalizeString (getTargetName (Some g))
             = normalizeString (Some tn)).
Proof.
  rewrite getTargetsByName_run. cbv zeta.
  destruct (filter _ _) as [|m missing] eqn:Hmiss; [|discriminate].
  cbn [length Nat.ltb Nat.leb]. intros H. inversion H; subst. clear H.
  split; [reflexivity|]. split.
  - intros g. rewrite in_flat_map. split.
    + intros [tn [Htn Hg]]. apply matchingTargets_In in Hg.
      destruct Hg as [Hg Hn]. split; [exact Hg|].
      apply distinct_In, in_map_iff in Htn.
      destruct Htn as [tn0 [H0 Hin]]. exists tn0. split; [exact Hin|].
      now rewrite Hn.
    + intros [Hg [tn [Htn Hn]]]. exists (normalizeString (Some tn)). split.
      * apply distinct_In, in_map_iff. now exists tn.
      * apply matchingTargets_In. now split.
  - intros tn Htn.
    assert (Hin : In (normalizeString (Some tn))
                     (distinct (map (fun tn => normalizeString (Some tn))
                                    (asArray names))))
      by (apply distinct_In, in_map_iff; now exists tn).
    pose proof (filter_nil_all _ _ Hmiss _ Hin) as Hsome.
    apply negb_false_iff in Hsome.
    destruct (matchingTargets (asArray targets) (normalizeString (Some tn)))
      as [|g l] eqn:Hm; [discriminate Hsome|].
    assert (Hg : In g (matchingTargets (asArray targets)
                                       (normalizeString (Some tn))))
      by (rewrite Hm; now left).
    exists g. split.
    + apply in_flat_map. exists (normalizeString (Some tn)). now split.
    + now apply matchingTargets_In in Hg.
Qed.

(** The warnings of [getTargetsByName] are one for each normalized
    requested name that no target has, each such name once, and nothing
    else is shown; the result is [false] exactly when there is such a
    name. *)
Theorem getTargetsByName_missing names targets st :
  exists missing,
    NoDup missing
    /\ (forall tn,
          In tn missing
          <-> In tn (map (fun tn => normalizeString (Some tn))
                         (asArray names))
              /\ forall g,
                  In g (asArray targets) ->
                  normalizeString (getTargetName (Some g)) <> tn)
    /\ snd (getTargetsByName names targets st)
       = st ++ map (fun tn =>
                      Vscode.ShowWarningMessage
                        ("The target '" ^^ tn ^^ "' does NOT EXIST!"))
                   missing
    /\ (fst (getTargetsByName names targets st) = None <-> missing <> []).
Proof.
  rewrite getTargetsByName_run. cbv zeta.
  set (tns := distinct _). set (missing := filter _ tns).
  exists missing. split; [|split; [|split]].
  - apply NoDup_filter. apply distinctFrom_NoDup.
  - intros tn. unfold missing. rewrite filter_In, negb_true_iff.
    unfold tns. rewrite distinct_In, matchingTargets_none. reflexivity.
  - destruct missing; cbn; [now rewrite app_nil_r|reflexivity].
  - destruct missing; cbn; split; try discriminate; try reflexivity.
    intros H. now elim H.
Qed.

(** When the targets are all different, no target comes twice in the list
    [getTargetsByName] gives, however often and in whatever spelling its
    name is requested. *)
Theorem getTargetsByName_no_duplicates names targets st found st' :
  NoDup (asArray targets) ->
  getTargetsByName names targets st = (Some found, st') ->
  NoDup found.
Proof.
  intros Hnd. rewrite getTargetsByName_run. cbv zeta.
  destruct (0 <? length _); [discriminate|].
  intros H. inversion H; subst. clear H.
  apply NoDup_flat_map_disjoint.
  - apply distinctFrom_NoDup.
  - intros tn. unfold matchingTargets. now apply NoDup_filter.
  - intros x y g Hxy Hx Hy.
    apply matchingTargets_In in Hx. apply matchingTargets_In in Hy.
    destruct Hx as [_ Hx]. destruct Hy as [_ Hy]. congruence.
Qed.

End NameFacts.

(** ** More on pulling *)

Section EmitsOnly.

Import Vscode Observations.

Variable P : Event -> Prop.

Lemma emitsOnly_ret {A} (a : A) : emitsOnly P (ret a).
Proof. split; [apply appending_ret|constructor]. Qed.

Lemma emitsOnly_throw {A} e : emitsOnly P (@throw Trace A e).
Proof. split; [apply appending_throw|constructor]. Qed.

Lemma emitsOnly_emit e : P e -> emitsOnly P (emit e).
Proof.
  intros He. split; [apply appending_emit|].
  constructor; [exact He|constructor].
Qed.

Lemma emitsOnly_bind {A B} (m : Async Trace A) (k : A -> Async Trace B) :
  emitsOnly P m -> (forall a, emitsOnly P (k a)) -> emitsOnly P (bind m k).
Proof.
  intros [Hm Hpm] Hk. split.
  - apply appending_bind; [exact Hm|]. intros a. apply Hk.
  - rewrite eventsOf_bind; [|exact Hm|intros a; apply Hk].
    apply Forall_app. split; [exact Hpm|].
    destruct (outcomeOf m) as [a|e]; [apply Hk|constructor].
Qed.

Lemma emitsOnly_try_catch {A} (m : Async Trace A) h :
  emitsOnly P m -> (forall e, emitsOnly P (h e)) ->
  emitsOnly P (try_catch m h).
Proof.
  intros [Hm Hpm] Hh. split.
  - apply appending_try_catch; [exact Hm|]. intros e. apply Hh.
  - rewrite eventsOf_try_catch; [|exact Hm|intros e; apply Hh].
    apply Forall_app. split; [exact Hpm|].
    destruct (outcomeOf m) as [a|e]; [constructor|apply Hh].
Qed.

End EmitsOnly.

Section PullExtras.

Import Vscode Pull Observations.

Variable writeFileError : string -> string -> option JsError.

Lemma transfer_downloadCompleted allowed f err df :
  In f allowed ->
  emitsOnly (isTransferEvent allowed)
            (downloadCompleted writeFileError f err df).
Proof.
  intros Hf. unfold downloadCompleted. apply emitsOnly_try_catch.
  - destruct err as [e|]; [apply emitsOnly_throw|].
    apply emitsOnly_bind; [|intros _; now apply emitsOnly_emit].
    destruct df as [d|]; [|apply emitsOnly_ret].
    apply emitsOnly_bind.
    + split; [|constructor]. intros st. unfold outcomeOf, eventsOf. cbn.
      now rewrite app_nil_r.
    + intros data. split; [intros st; reflexivity|].
      constructor; [exact Hf|constructor].
  - intros e. now apply emitsOnly_emit.
Qed.

Lemma transfer_performCall N CTX c :
  Forall (builtFor writeFileError N) (Pull.files CTX) ->
  emitsOnly (isTransferEvent (map file (Pull.files CTX))) (performCall CTX c).
Proof.
  intros HF. rewrite Forall_forall in HF.
  destruct c as [i d|i err df]; cbn [performCall];
    destruct (nth_error (Pull.files CTX) i) as [SF|] eqn:Hi;
    try apply emitsOnly_throw;
    pose proof (nth_error_In _ _ Hi) as Hin;
    destruct (HF SF Hin) as [Hb Hc].
  - rewrite Hb. now apply emitsOnly_emit.
  - rewrite Hc. apply transfer_downloadCompleted. now apply in_map.
Qed.

Lemma transfer_performCalls N CTX cs :
  Forall (builtFor writeFileError N) (Pull.files CTX) ->
  emitsOnly (isTransferEvent (map file (Pull.files CTX)))
            (performCalls CTX cs).
Proof.
  intros HF. induction cs as [|c cs IH]; cbn [performCalls].
  - apply emitsOnly_ret.
  - apply emitsOnly_bind;
      [now apply (transfer_performCall N)|intros _; exact IH].
Qed.

Lemma transfer_callDownloadFiles N PI CTX :
  Forall (builtFor writeFileError N) (Pull.files CTX) ->
  emitsOnly (isTransferEvent (map file (Pull.files CTX)))
            (callDownloadFiles PI CTX).
Proof.
  intros HF. unfold callDownloadFiles.
  destruct (downloadFiles PI) as [run|].
  - apply emitsOnly_bind; [now apply emitsOnly_emit|]. intros _.
    apply emitsOnly_bind; [now apply (transfer_performCalls N)|]. intros _.
    destruct (failure (run CTX)); [apply emitsOnly_throw|apply emitsOnly_ret].
  - apply emitsOnly_bind; [now apply emitsOnly_emit|]. intros _.
    apply emitsOnly_throw.
Qed.

(** The calls of a turn are calls of a transfer, and what is written is a
    file of the batch that has path information. *)
Lemma transfer_turnEvents ME files target N PI :
  Forall (isTransferEvent (filter (isResolvable ME) files))
         (turnEvents writeFileError ME files target N PI).
Proof.
  unfold turnEvents.
  set (CTX := {| Pull.files := descriptorsOf writeFileError ME N files;
                 Pull.target := target |}).
  pose proof (transfer_callDownloadFiles
                N PI CTX (descriptors_built writeFileError ME N files))
    as [_ Hcall].
  subst CTX. cbn [Pull.files] in Hcall. rewrite descriptors_files in Hcall.
  apply Forall_app. split; [constructor; [exact I|constructor]|].
  apply Forall_app. split.
  { destruct (1 <? length files); constructor; [exact I|constructor]. }
  apply Forall_app. split.
  { unfold unresolvedLog. apply Forall_forall. intros e He.
    apply in_map_iff in He. destruct He as [f [<- _]]. exact I. }
  apply Forall_app. split; [exact Hcall|].
  destruct (outcomeOf _) as [[]|e].
  - destruct (1 <? length files); constructor; [exact I|constructor].
  - constructor; [exact I|constructor].
Qed.

Lemma transfer_turns ME files target N PLUGINS :
  Forall (isTransferEvent (filter (isResolvable ME) files))
         (flat_map (turnEvents writeFileError ME files target N) PLUGINS).
Proof.
  induction PLUGINS as [|PI rest IH]; cbn [flat_map]; [constructor|].
  apply Forall_app. split; [apply transfer_turnEvents|exact IH].
Qed.

(** [pullFilesFrom] on any input. *)
Lemma pullFilesFrom_events ME files target targetNr st :
  exists evs,
    pullFilesFrom writeFileError ME files target targetNr st
    = (Resolved tt, st ++ evs)
    /\ (files = [] \/ target = None -> evs = [])
    /\ (evs = [ShowWarningMessage "No matching PLUGINS found!"]
        \/ Forall (isTransferEvent (filter (isResolvable ME) files)) evs).
Proof.
  destruct files as [|f files].
  - exists []. cbn. rewrite app_nil_r.
    split; [reflexivity|split; [reflexivity|right; constructor]].
  - destruct target as [target|].
    + eexists. split; [apply pullFilesFrom_run; discriminate|].
      split; [intros [H|H]; discriminate H|].
      destruct (matchingPlugins ME target) as [|PI rest] eqn:HP;
        [now left|right].
      rewrite <- HP. apply transfer_turns.
    + exists []. cbn. rewrite app_nil_r.
      split; [reflexivity|split; [reflexivity|right; constructor]].
Qed.


(** Whatever the plugins report, a pull writes no file but the files of
    the batch that have path information. *)
Theorem pull_writes_only_files_of_the_batch
        ME files target targetNr st f data :
  In (WriteFile f data)
     (snd (pullFilesFrom writeFileError ME files target targetNr st)) ->
  In (WriteFile f data) st
  \/ (In f files /\ toNameAndPath ME f <> None).
Proof.
  destruct (pullFilesFrom_events ME files target targetNr st)
    as [evs [-> [_ Hevs]]].
  cbn [snd]. rewrite in_app_iff. intros [H|H]; [now left|right].
  destruct Hevs as [->|Hall].
  - destruct H as [H|[]]. discriminate H.
  - rewrite Forall_forall in Hall. specialize (Hall _ H). cbn in Hall.
    apply filter_In in Hall. destruct Hall as [Hf Hres].
    split; [exact Hf|]. unfold isResolvable in Hres.
    destruct (toNameAndPath ME f); [discriminate|discriminate Hres].
Qed.

(** The target number has no effect on a pull. *)
Lemma pullFilesFrom_targetNr ME files target n m :
  pullFilesFrom writeFileError ME files target n
  = pullFilesFrom writeFileError ME files target m.
Proof.
  unfold pullFilesFrom. destruct (length files <? 1); [reflexivity|].
  now destruct target.
Qed.

(** [pullFileFrom] fails before any call is made when the workspace cannot
    handle the target, and otherwise is the pull of the batch of this one
    file, whatever target number that pull is given. *)
Theorem pullFileFrom_is_single_file_pull ME file target st :
  (canBeHandledByMe ME target = false ->
   pullFileFrom writeFileError ME file (Some target) st
   = (Rejected ("File '" ^^ file ^^ "' cannot be pulled to workspace '"
                  ^^ Targets.fsPath (folder ME) ^^ "'!"),
      st))
  /\ (canBeHandledByMe ME target = true ->
      forall targetNr,
        pullFileFrom writeFileError ME file (Some target) st
        = pullFilesFrom writeFileError ME [file] (Some target) targetNr st).
Proof.
  unfold pullFileFrom. split; intros H; rewrite H; cbn [negb].
  - reflexivity.
  - intros targetNr.
    now rewrite (pullFilesFrom_targetNr ME [file] (Some target) _ targetNr).
Qed.

Lemma callback_event_terse e : isCallbackEvent e -> isTerse e.
Proof. destruct e; cbn; try exact (fun _ => I). intros H. now right. Qed.

Lemma terse_turnEvents ME files target N PI :
  length files <= 1 ->
  Forall isTerse (turnEvents writeFileError ME files target N PI).
Proof.
  intros Hlen. unfold turnEvents.
  assert (Hb : (1 <? length files) = false) by (apply Nat.ltb_ge; lia).
  rewrite Hb.
  set (CTX := {| Pull.files := descriptorsOf writeFileError ME N files;
                 Pull.target := target |}).
  destruct (callDownloadFiles_events
              writeFileError N PI CTX
              (descriptors_built writeFileError ME N files))
    as [d [cb [Hev [_ [Hd Hcb]]]]].
  rewrite Hev.
  apply Forall_app. split; [constructor; [now left|constructor]|].
  apply Forall_app. split; [constructor|].
  apply Forall_app. split.
  { unfold unresolvedLog. apply Forall_forall. intros e He.
    apply in_map_iff in He. destruct He as [f [<- _]]. exact I. }
  apply Forall_app. split.
  { constructor.
    - destruct d; try exact I. now elim (Hd value).
    - eapply Forall_impl; [|exact Hcb]. apply callback_event_terse. }
  destruct (outcomeOf _) as [[]|e]; [constructor|].
  constructor; [|constructor]. right. eexists. reflexivity.
Qed.

(** The pull of a batch of one file logs no banner: every line it logs is
    the empty line or starts with a bracket, as [[OK]] and the error lines
    do. *)
Theorem single_file_pull_logs_no_banner ME files target targetNr st :
  length files <= 1 ->
  exists evs,
    pullFilesFrom writeFileError ME files target targetNr st
    = (Resolved tt, st ++ evs)
    /\ Forall isTerse evs.
Proof.
  intros Hlen.
  destruct files as [|f files].
  - exists []. cbn. rewrite app_nil_r. split; [reflexivity|constructor].
  - destruct target as [target|].
    + eexists. split; [apply pullFilesFrom_run; discriminate|].
      destruct (matchingPlugins ME target) as [|PI rest] eqn:HP.
      * constructor; [exact I|constructor].
      * rewrite <- HP. generalize (matchingPlugins ME target).
        intros l. induction l as [|PI' l IH]; cbn [flat_map];
          [constructor|].
        apply Forall_app. split; [now apply terse_turnEvents|exact IH].
    + exists []. cbn. rewrite app_nil_r. split; [reflexivity|constructor].
Qed.

(** A target without a type has the normalized target type [test], but a
    pull from it goes by the type as it is written: only the plugins of the
    empty type get a turn, not the plugins of type [test]. *)
Theorem untyped_target_is_pulled_by_wildcard_plugins_only
        ME files target targetNr st :
  files <> [] ->
  normalizeString (Targets.type target) = EmptyString ->
  Targets.normalizeTargetType (Some target) = Some "test"
  /\ exists evs,
      pullFilesFrom writeFileError ME files (Some target) targetNr st
      = (Resolved tt, st ++ evs)
      /\ map fst (dispatchesOf evs)
         = map __index
               (filter (fun pi => String.eqb EmptyString (__type pi))
                       (plugins ME)).
Proof.
  intros Hfiles Htype. split.
  - unfold Targets.normalizeTargetType. now rewrite Htype.
  - assert (HP : matchingPlugins ME target
                 = filter (fun pi => String.eqb EmptyString (__type pi))
                          (plugins ME)).
    { unfold matchingPlugins. rewrite Htype. apply filter_ext.
      intros pi. unfold isMatching.
      destruct (String.eqb EmptyString (__type pi)); reflexivity. }
    eexists. split; [now apply pullFilesFrom_run|].
    rewrite <- HP.
    destruct (matchingPlugins ME target) as [|PI rest] eqn:HM;
      [reflexivity|].
    rewrite <- HM. now rewrite dispatchesOf_turns, map_map.
Qed.

End PullExtras.

Section PackageExtras.

Import Vscode Observations.

Variable writeFileError : string -> string -> option JsError.
Variable chooseQuickPick : list QuickPickItem -> string -> option nat.

(** Calls among which there is no quick pick. *)
Lemma pull_shows_no_quick_pick ME files target targetNr st items ph :
  In (ShowQuickPick items ph)
     (snd (Pull.pullFilesFrom writeFileError ME files target targetNr st)) ->
  In (ShowQuickPick items ph) st.
Proof.
  destruct (pullFilesFrom_events writeFileError ME files target targetNr st)
    as [evs [-> [_ Hevs]]].
  cbn [snd]. rewrite in_app_iff. intros [H|H]; [exact H|].
  destruct Hevs as [->|Hall].
  - destruct H as [H|[]]. discriminate H.
  - rewrite Forall_forall in Hall. now specialize (Hall _ H).
Qed.

Lemma pull_resolves ME files target targetNr st :
  fst (Pull.pullFilesFrom writeFileError ME files target targetNr st)
  = Resolved tt.
Proof.
  destruct (pullFilesFrom_events writeFileError ME files target targetNr st)
    as [evs [-> _]].
  reflexivity.
Qed.

(** [pullPackage] for a package the workspace can handle. *)
Lemma pullPackage_handled ME pkg st :
  Pull.canBeHandledByMe_package ME pkg = true ->
  fst (Pull.pullPackage writeFileError chooseQuickPick ME (Some pkg) st)
  = Resolved tt
  /\ forall items ph,
       In (ShowQuickPick items ph)
          (snd (Pull.pullPackage writeFileError chooseQuickPick ME
                                 (Some pkg) st)) ->
       In (ShowQuickPick items ph) st
       \/ (Pull.findFilesByFilter ME pkg <> []
           /\ 2 <= length (Pull.getTargets ME)
           /\ items = map itemFor (Pull.getTargets ME)
           /\ ph = "Select the TARGET to pull from...").
Proof.
  intros Hcan. unfold Pull.pullPackage. rewrite Hcan. cbn [negb].
  destruct (Pull.findFilesByFilter ME pkg) as [|f0 fs].
  - cbn. split; [reflexivity|]. intros items ph H.
    apply in_app_iff in H. destruct H as [H|[H|[]]]; [now left|discriminate H].
  - cbn [length Nat.ltb Nat.leb].
    rewrite targetItems_length.
    pose proof (targetItems_item writeFileError ME (f0 :: fs)
                                 (Pull.getTargets ME) 0) as Hshown.
    pose proof (targetItems_action writeFileError ME (f0 :: fs)
                                   (Pull.getTargets ME) 0) as Hnth.
    destruct (Pull.getTargets ME) as [|g1 [|g2 more]] eqn:HT.
    + cbn. split; [reflexivity|]. intros items ph H.
      apply in_app_iff in H.
      destruct H as [H|[H|[]]]; [now left|discriminate H].
    + cbn [length Nat.ltb Nat.leb Nat.eqb Pull.targetItems].
      unfold bind, ret. cbn [nth_error Contracts.action].
      split; [apply pull_resolves|].
      intros items ph H. left. now apply pull_shows_no_quick_pick in H.
    + cbn [length Nat.ltb Nat.leb Nat.eqb].
      unfold bind, Targets.showQuickPick. rewrite Hshown.
      set (st1 := st ++ [ShowQuickPick _ _]).
      assert (Hst1 : forall items ph,
                 In (ShowQuickPick items ph) st1 ->
                 In (ShowQuickPick items ph) st
                 \/ (f0 :: fs <> []
                     /\ 2 <= length (g1 :: g2 :: more)
                     /\ items = map itemFor (g1 :: g2 :: more)
                     /\ ph = "Select the TARGET to pull from...")).
      { intros items ph H. subst st1. apply in_app_iff in H.
        destruct H as [H|[H|[]]]; [now left|right].
        inversion H; subst.
        repeat split; [discriminate|cbn; lia]. }
      destruct (chooseQuickPick _ _) as [i|];
        [|split; [reflexivity|exact Hst1]].
      specialize (Hnth i).
      destruct (nth_error (Pull.targetItems _ _ _ _ _) i) as [it|];
        destruct (nth_error (g1 :: g2 :: more) i) as [g|];
        cbn [option_map] in Hnth; try discriminate;
        [|split; [reflexivity|exact Hst1]].
      inversion Hnth as [Hact]. rewrite Hact.
      split; [apply pull_resolves|].
      intros items ph H. apply pull_shows_no_quick_pick in H.
      now apply Hst1.
Qed.

(** [pullPackage] rejects exactly when the workspace cannot handle the
    package, and then it has made no call. *)
Theorem pullPackage_rejects_only_unhandled ME pkg st :
  let result :=
    Pull.pullPackage writeFileError chooseQuickPick ME (Some pkg) st in
  ((exists e, fst result = Rejected e)
   <-> Pull.canBeHandledByMe_package ME pkg = false)
  /\ (Pull.canBeHandledByMe_package ME pkg = false -> snd result = st).
Proof.
  intros result. subst result.
  destruct (Pull.canBeHandledByMe_package ME pkg) eqn:Hcan.
  - destruct (pullPackage_handled ME pkg st Hcan) as [Hres _].
    split; [|discriminate]. split; [|discriminate].
    intros [e He]. rewrite Hres in He. discriminate He.
  - unfold Pull.pullPackage. rewrite Hcan. cbn.
    split; [|reflexivity]. split; [reflexivity|].
    intros _. eexists. reflexivity.
Qed.

(** [pullPackage] shows a quick pick only when there are files to pull and
    two targets or more to choose from, and then it shows the items of all
    the targets. *)
Theorem pullPackage_prompts_only_for_a_choice ME pkg st items ph :
  In (ShowQuickPick items ph)
     (snd (Pull.pullPackage writeFileError chooseQuickPick ME (Some pkg) st))
  ->
  In (ShowQuickPick items ph) st
  \/ (Pull.canBeHandledByMe_package ME pkg = true
      /\ Pull.findFilesByFilter ME pkg <> []
      /\ 2 <= length (Pull.getTargets ME)
      /\ items = map itemFor (Pull.getTargets ME)
      /\ ph = "Select the TARGET to pull from...").
Proof.
  destruct (Pull.canBeHandledByMe_package ME pkg) eqn:Hcan.
  - intros H.
    destruct (pullPackage_handled ME pkg st Hcan) as [_ Hpick].
    destruct (Hpick items ph H) as [Hst|Hnew]; [now left|right].
    now split.
  - unfold Pull.pullPackage. rewrite Hcan. cbn. now left.
Qed.

End PackageExtras.

Section QuickPickExtras.

Import Vscode Observations.

Variable chooseQuickPick : list QuickPickItem -> string -> option nat.

(** [showTargetQuickPick] itself never rejects: when its promise rejects,
    the error is the one the action rejected with for one of the targets
    that are objects. *)
Theorem showTargetQuickPick_rejects_only_through_action
        targets placeHolder action st err :
  fst (Targets.showTargetQuickPick chooseQuickPick targets placeHolder
                                   action st)
  = Rejected err ->
  exists run g st0,
    action = Some run
    /\ In g (Targets.objectsOf targets)
    /\ fst (run g st0) = Rejected err.
Proof.
  unfold Targets.showTargetQuickPick.
  set (objs := Targets.objectsOf targets).
  set (act := fun g : Targets.Target =>
                match action with
                | Some action => action g
                | None => ret tt
                end).
  set (mk := fun g : Targets.Target =>
               {| Contracts.item := itemFor g; Contracts.action := act g |}).
  change (map _ objs) with (map mk objs).
  assert (Hact : forall g st0,
             In g objs ->
             fst (act g st0) = Rejected err ->
             exists run g st0,
               action = Some run /\ In g objs
               /\ fst (run g st0) = Rejected err).
  { intros g st0 Hg H. subst act. cbn in H.
    destruct action as [run|]; [|discriminate H].
    now exists run, g, st0. }
  rewrite length_map.
  destruct objs as [|g1 [|g2 more]] eqn:Hobjs.
  - cbn. discriminate.
  - cbn [length Nat.ltb Nat.leb Nat.eqb map]. unfold bind, ret.
    cbn [nth_error mk Contracts.action]. intros H.
    apply (Hact g1 st); [now left|exact H].
  - cbn [length Nat.ltb Nat.leb Nat.eqb]. unfold bind, Targets.showQuickPick.
    destruct (chooseQuickPick _ _) as [i|]; [|discriminate].
    rewrite nth_error_map.
    destruct (nth_error (g1 :: g2 :: more) i) as [g|] eqn:Hi;
      [|discriminate].
    cbn [option_map mk Contracts.action]. intros H.
    apply (Hact g _ (nth_error_In _ _ Hi) H).
Qed.

End QuickPickExtras.

Lemma chain_without_executable_entry_returns_true_witness :
  Targets.executeTargetOperations Samples.allFine Samples.literalCondition
    (Some Samples.idleTarget) Targets.AfterDeployed Samples.idle
  = (Resolved (Some true), Samples.idle).
Proof.
  apply chain_without_executable_entry_returns_true; [reflexivity|].
  constructor; [reflexivity|].
  constructor; [right; reflexivity|].
  constructor; [|constructor].
  left. exists "false". split; reflexivity.
Defined.


Lemma passed_over_entries_do_not_matter_witness :
  Targets.executeLoop Samples.allFine Samples.literalCondition
    Samples.idleTarget Targets.AfterDeployed None
    [Targets.OperationString "   "; Targets.OperationString "a.txt"]
    Samples.idle
  = Targets.executeLoop Samples.allFine Samples.literalCondition
      Samples.idleTarget Targets.AfterDeployed None
      [Targets.OperationString "a.txt"] Samples.idle.
Proof.
  apply (passed_over_entries_do_not_matter
           Samples.allFine Samples.literalCondition
           Samples.idleTarget Targets.AfterDeployed
           [Targets.OperationString "   "; Targets.OperationString "a.txt"]);
    reflexivity.
Defined.


Lemma getTargetsByName_found_witness :
  exists g,
    In g [Samples.chainTarget; Samples.idleTarget]
    /\ normalizeString (Targets.getTargetName (Some g))
       = normalizeString (Some "Staging").
Proof.
  destruct (getTargetsByName_found
              (Helpers.Many ["SRV "; "srv"; "Staging"])
              (Helpers.Many [Samples.chainTarget; Samples.backupTarget;
                             Samples.idleTarget])
              [] [Samples.chainTarget; Samples.idleTarget] [])
    as [_ [_ Hall]]; [reflexivity|].
  apply (Hall "Staging"). cbn. tauto.
Defined.

Lemma getTargetsByName_no_duplicates_witness :
  NoDup [Samples.chainTarget; Samples.idleTarget].
Proof.
  apply (getTargetsByName_no_duplicates
           (Helpers.Many ["SRV "; "srv"; "Staging"])
           (Helpers.Many [Samples.chainTarget; Samples.backupTarget;
                          Samples.idleTarget])
           [] [Samples.chainTarget; Samples.idleTarget] []);
    [|reflexivity].
  repeat constructor; cbn; intros H;
    repeat (destruct H as [H|H];
            [apply (f_equal Targets.__index) in H; discriminate H|]);
    exact H.
Defined.


Lemma pull_writes_only_files_of_the_batch_witness :
  In (Vscode.WriteFile "index.html" "<html>") []
  \/ (In "index.html" ["index.html"]
      /\ Pull.toNameAndPath (Samples.site []) "index.html" <> None).
Proof.
  apply (pull_writes_only_files_of_the_batch
           Samples.lockedFile (Samples.site []) ["index.html"]
           (Some Samples.chainTarget) None []).
  vm_compute. right. right. right. left. reflexivity.
Defined.

Lemma pullFileFrom_is_single_file_pull_witness :
  Pull.pullFileFrom Samples.lockedFile (Samples.site []) "index.html"
    (Some Samples.chainTarget) []
  = Pull.pullFilesFrom Samples.lockedFile (Samples.site []) ["index.html"]
      (Some Samples.chainTarget) None []
  /\ fst (Pull.pullFileFrom Samples.lockedFile Samples.foreignSite
            "index.html" (Some Samples.chainTarget) [])
     = Rejected
         "File 'index.html' cannot be pulled to workspace '/home/dev/site'!".
Proof.
  split.
  - apply (proj2 (pullFileFrom_is_single_file_pull
                    Samples.lockedFile (Samples.site []) "index.html"
                    Samples.chainTarget [])).
    reflexivity.
  - rewrite (proj1 (pullFileFrom_is_single_file_pull
                      Samples.lockedFile Samples.foreignSite "index.html"
                      Samples.chainTarget []));
      reflexivity.
Defined.

Lemma single_file_pull_logs_no_banner_witness :
  exists evs,
    Pull.pullFilesFrom Samples.lockedFile (Samples.site []) ["index.html"]
      (Some Samples.chainTarget) None []
    = (Resolved tt, evs)
    /\ Forall Observations.isTerse evs.
Proof.
  apply (single_file_pull_logs_no_banner
           Samples.lockedFile (Samples.site []) ["index.html"]
           (Some Samples.chainTarget) None []).
  cbn. lia.
Defined.

Lemma untyped_target_is_pulled_by_wildcard_plugins_only_witness :
  exists evs,
    Pull.pullFilesFrom Samples.lockedFile (Samples.site []) ["index.html"]
      (Some Samples.idleTarget) None []
    = (Resolved tt, evs)
    /\ map fst (Observations.dispatchesOf evs) = [2].
Proof.
  apply (proj2 (untyped_target_is_pulled_by_wildcard_plugins_only
                  Samples.lockedFile (Samples.site []) ["index.html"]
                  Samples.idleTarget None []
                  ltac:(discriminate) eq_refl)).
Defined.

Lemma pullPackage_rejects_only_unhandled_witness :
  snd (Pull.pullPackage Samples.lockedFile Samples.dismiss
         Samples.foreignSite (Some Samples.release) [])
  = [].
Proof.
  apply (proj2 (pullPackage_rejects_only_unhandled
                  Samples.lockedFile Samples.dismiss
                  Samples.foreignSite Samples.release [])).
  reflexivity.
Defined.

Lemma pullPackage_prompts_only_for_a_choice_witness :
  In (Vscode.ShowQuickPick
        [Observations.itemFor Samples.chainTarget;
         Observations.itemFor Samples.backupTarget]
        "Select the TARGET to pull from...")
     []
  \/ (Pull.canBeHandledByMe_package
        (Samples.site [Samples.chainTarget; Samples.backupTarget])
        Samples.release = true
      /\ Pull.findFilesByFilter
           (Samples.site [Samples.chainTarget; Samples.backupTarget])
           Samples.release <> []
      /\ 2 <= length (Pull.getTargets
                        (Samples.site [Samples.chainTarget;
                                       Samples.backupTarget]))
      /\ [Observations.itemFor Samples.chainTarget;
          Observations.itemFor Samples.backupTarget]
         = map Observations.itemFor
               (Pull.getTargets
                  (Samples.site [Samples.chainTarget; Samples.backupTarget]))
      /\ "Select the TARGET to pull from..."
         = "Select the TARGET to pull from...").
Proof.
  apply (pullPackage_prompts_only_for_a_choice
           Samples.lockedFile Samples.dismiss
           (Samples.site [Samples.chainTarget; Samples.backupTarget])
           Samples.release []).
  vm_compute. left. reflexivity.
Defined.

Lemma showTargetQuickPick_rejects_only_through_action_witness :
  exists run g st0,
    Some (fun _ : Targets.Target => @throw Vscode.Trace unit "EBUSY")
    = Some run
    /\ In g (Targets.objectsOf (Helpers.One (Some Samples.chainTarget)))
    /\ fst (run g st0) = Rejected "EBUSY".
Proof.
  apply (showTargetQuickPick_rejects_only_through_action
           Samples.dismiss (Helpers.One (Some Samples.chainTarget)) None
           (Some (fun _ => throw "EBUSY")) [] "EBUSY").
  reflexivity.
Defined.
